(** * Claim extraction and session assembly of oauth2-proxy

    A shallow embedding of [pkg/providers/util/claim_extractor.go] and of the
    [ProviderData] helpers of package [providers] that build a session from
    the claims, with the properties of the claim-resolution contract proved
    about it.

    Go values are modelled as the code has them: a function returning
    [(T, error)] returns a pair whose second component is [None] for a [nil]
    error; a nilable map is an [option]; a method with a pointer receiver
    takes the receiver's state and returns the new one. *)

From Stdlib Require Import SpecFloat Ascii.
From stdpp Require Import gmap strings list fin_maps pretty sorting.

Set Warnings "-register-all,-clear-no-such-hyp".

Open Scope string_scope.
Open Scope list_scope.

(** ** Claim values *)

(** [float64]: encoding/json decodes every JSON number into one. *)
Abbreviation float64 := spec_float.

(** The dynamic types an [interface{}] holds after [json.Unmarshal]:
    [nil], [bool], [float64], [string], [[]interface{}] and
    [map[string]interface{}]. *)
Inductive any : Type :=
  | VNil
  | VBool (b : bool)
  | VFloat (f : float64)
  | VString (s : string)
  | VSlice (l : list any)
  | VMap (m : gmap string any).

(** [map[string]interface{}], read-only uses: a [nil] map reads as the empty one. *)
Abbreviation ClaimSet := (gmap string any).

(** ** Errors *)

(** The destination of a coercion: [dst interface{}] holds a pointer, modelled
    by the pointer's type together with the value it points to. [POther]
    is a destination of any other dynamic type, named as [%T] prints it. *)
Inductive Dst : Type :=
  | PString (cur : string)
  | PStringSlice (cur : list string)
  | PBool (cur : bool)
  | POther (typ : string).

(** An [error] is either made by [errors.New] (or handed over by a library,
    with its message), or by [fmt.Errorf] from a format and its arguments. *)
Inductive error : Type :=
  | errors_New (msg : string)
  | fmt_Errorf (format : string) (args : list fmt_arg)
with fmt_arg : Type :=
  | ArgString (s : string)
  | ArgError (e : error)
  | ArgValue (v : any)
  | ArgType (d : Dst).

(** ** Library functions the code calls *)

(** The functions of the Go libraries that the code calls and whose text is
    not part of the package: they are taken as they come. *)
Class GoLib : Type := {
  (** [strconv.FormatFloat(f, 'f', -1, 64)], as [cast.ToStringE] calls it. *)
  strconv_FormatFloat : float64 -> string;
  (** [cast.ToBool] on a [float64]: the releases of the library differ. *)
  cast_ToBool_float64 : float64 -> bool;
  (** [json.Marshal]: the text and the error. *)
  json_Marshal : any -> string * option error;
}.

(** [strconv.ParseBool]. *)
Definition strconv_ParseBool (s : string) : bool * option error :=
  if bool_decide (s ∈ ["1"; "t"; "T"; "TRUE"; "true"; "True"]) then (true, None)
  else if bool_decide (s ∈ ["0"; "f"; "F"; "FALSE"; "false"; "False"]) then (false, None)
  else (false, Some (fmt_Errorf "strconv.ParseBool: parsing %q: invalid syntax" [ArgString s])).

Definition strconv_FormatBool (b : bool) : string :=
  if b then "true" else "false".

Section Coercion.
Context {lib : GoLib}.

(** [cast.ToStringE] on the dynamic types of a claim value. *)
Definition cast_ToStringE (i : any) : string * option error :=
  match i with
  | VString s => (s, None)
  | VBool b => (strconv_FormatBool b, None)
  | VFloat f => (strconv_FormatFloat f, None)
  | VNil => ("", None)
  | VSlice _ | VMap _ =>
      ("", Some (fmt_Errorf "unable to cast %#v of type %T to string" [ArgValue i; ArgValue i]))
  end.

(** [cast.ToBool]: [cast.ToBoolE] with its error dropped. *)
Definition cast_ToBool (i : any) : bool :=
  match i with
  | VBool b => b
  | VNil => false
  | VString s => fst (strconv_ParseBool s)
  | VFloat f => cast_ToBool_float64 f
  | VSlice _ | VMap _ => false
  end.

(** [cast.ToSlice]: [cast.ToSliceE] with its error dropped. *)
Definition cast_ToSlice (i : any) : list any :=
  match i with
  | VSlice v => v
  | _ => []
  end.

Definition toString (value : any) : string * option error :=
  match cast_ToStringE value with
  | (str, None) => (str, None)
  | (_, Some _) =>
      match json_Marshal value with
      | (_, Some err) => ("", Some err)
      | (jsonStr, None) => (jsonStr, None)
      end
  end.

(** The loop of [toStringSlice], [out] being the slice built so far. *)
Fixpoint toStringSlice_loop (sliceValues : list any) (out : list string)
  : list string * option error :=
  match sliceValues with
  | [] => (out, None)
  | v :: rest =>
      match toString v with
      | (_, Some err) =>
          ([], Some (fmt_Errorf "could not convert slice entry to string %v: %v"
                       [ArgValue v; ArgError err]))
      | (str, None) => toStringSlice_loop rest (out ++ [str])
      end
  end.

Definition toStringSlice (value : any) : list string * option error :=
  let sliceValues :=
    match value with
    | VSlice v => v
    | VNil => cast_ToSlice value
    | v => [v]
    end in
  toStringSlice_loop sliceValues [].

(** [coerceClaim] returns the destination as the call leaves it. *)
Definition coerceClaim (value : any) (dst : Dst) : Dst * option error :=
  match dst with
  | PString _ =>
      match toString value with
      | (_, Some err) =>
          (dst, Some (fmt_Errorf "could not convert value to string: %v" [ArgError err]))
      | (str, None) => (PString str, None)
      end
  | PStringSlice _ =>
      match toStringSlice value with
      | (_, Some err) =>
          (dst, Some (fmt_Errorf "could not convert value to string slice: %v" [ArgError err]))
      | (strSlice, None) => (PStringSlice strSlice, None)
      end
  | PBool _ => (PBool (cast_ToBool value), None)
  | POther _ => (dst, Some (fmt_Errorf "unknown type for destination: %T" [ArgType dst]))
  end.
End Coercion.

(** ** The profile endpoint *)

(** [context.Context]: [context.TODO()] or one the caller made. *)
Inductive Context_ : Type :=
  | context_TODO
  | context_of (id : nat).

(** [http.Header], [map[string][]string]. *)
Abbreviation Header := (gmap string (list string)).

(** The request [requests.New(url).WithContext(ctx).WithHeaders(h)] builds. *)
Record Request : Type := mkRequest {
  reqURL : string;
  reqCtx : Context_;
  reqHeaders : Header;
}.

(** What [Do().UnmarshalInto(&claims)] leaves in [claims], a nilable map,
    and the error it returns. *)
Definition Response : Type := option ClaimSet * option error.

(** The network: the requests issued so far with the answers they got, oldest
    first, and the endpoint's answer to a request given how many came before. *)
Record World : Type := mkWorld {
  issued : list (Request * Response);
  respond : nat -> Request -> Response;
}.

(** [requests.New(...)...Do().UnmarshalInto(&claims)]: one request. *)
Definition requests_Do (req : Request) (w : World) : Response * World :=
  let resp := respond w (length (issued w)) req in
  (resp, {| issued := issued w ++ [(req, resp)]; respond := respond w |}).

(** ** The claim extractor *)

(** [*oidc.IDToken]: [Claims] is what [idToken.Claims(&m)] leaves in an empty
    map [m], with the error it returns. *)
Record IDToken : Type := mkIDToken {
  Claims : ClaimSet * option error;
}.

(** [profileURL] is the [String()] of the [*url.URL], [None] for [nil]. *)
Record claimExtractor : Type := mkClaimExtractor {
  profileURL : option string;
  ctx : Context_;
  requestHeaders : option Header;
  tokenClaims : ClaimSet;
  profileClaims : option ClaimSet;
}.

Definition set_profileClaims (c : claimExtractor) (m : option ClaimSet) : claimExtractor :=
  {| profileURL := profileURL c; ctx := ctx c; requestHeaders := requestHeaders c;
     tokenClaims := tokenClaims c; profileClaims := m |}.

Definition NewClaimExtractor (ctx : Context_) (idToken : IDToken)
    (profileURL : option string) (profileRequestHeaders : option Header)
  : option claimExtractor * option error :=
  match Claims idToken with
  | (_, Some err) =>
      (None, Some (fmt_Errorf "failed to extract claims from ID Token: %v" [ArgError err]))
  | (claims, None) =>
      (Some {| profileURL := profileURL; ctx := ctx;
               requestHeaders := profileRequestHeaders;
               tokenClaims := claims; profileClaims := None |}, None)
  end.

Definition getProfileClaims (c : claimExtractor) (w : World)
  : (option ClaimSet * option error) * World :=
  match profileURL c, requestHeaders c with
  | Some url, Some headers =>
      match requests_Do {| reqURL := url; reqCtx := ctx c; reqHeaders := headers |} w with
      | ((_, Some err), w) =>
          ((None, Some (fmt_Errorf "error making request to profile URL: %v" [ArgError err])), w)
      | ((claims, None), w) => ((claims, None), w)
      end
  | _, _ => ((Some ∅, None), w)
  end.

(** [GetClaim] returns its three results, the extractor and the network. *)
Definition GetClaim (claim : string) (c : claimExtractor) (w : World)
  : (any * bool * option error) * claimExtractor * World :=
  if decide (claim = "") then ((VNil, false, None), c, w)
  else
    match tokenClaims c !! claim with
    | Some value => ((value, true, None), c, w)
    | None =>
        let fetched :=
          match profileClaims c with
          | None =>
              match getProfileClaims c w with
              | ((_, Some err), w) =>
                  (Some (fmt_Errorf "failed to fetch claims from profile URL: %v" [ArgError err]),
                   c, w)
              | ((profileClaims, None), w) => (None, set_profileClaims c profileClaims, w)
              end
          | Some _ => (None, c, w)
          end in
        match fetched with
        | (Some err, c, w) => ((VNil, false, Some err), c, w)
        | (None, c, w) =>
            match profileClaims c ≫= (.!! claim) with
            | Some value => ((value, true, None), c, w)
            | None => ((VNil, false, None), c, w)
            end
        end
    end.

Section Extractor.
Context {lib : GoLib}.

(** [GetClaimInto] returns its two results, the destination as the call
    leaves it, the extractor and the network. *)
Definition GetClaimInto (claim : string) (dst : Dst) (c : claimExtractor) (w : World)
  : (bool * option error) * Dst * claimExtractor * World :=
  match GetClaim claim c w with
  | ((_, _, Some err), c, w) =>
      ((false, Some (fmt_Errorf "could not get claim %q: %v" [ArgString claim; ArgError err])),
       dst, c, w)
  | ((_, false, None), c, w) => ((false, None), dst, c, w)
  | ((value, true, None), c, w) =>
      match coerceClaim value dst with
      | (dst, Some err) =>
          ((false, Some (fmt_Errorf "could no coerce claim: %v" [ArgError err])), dst, c, w)
      | (dst, None) => ((true, None), dst, c, w)
      end
  end.
End Extractor.

(** ** Sessions and provider data *)

(** Modelled from the spec: [sessions.SessionState] is declared in
    [pkg/apis/sessions], outside the files at hand; the fields are the ones the
    spec's Session record and nonce check name. *)
Record SessionState : Type := mkSessionState {
  User : string;
  Email : string;
  Groups : list string;
  PreferredUsername : string;
  Nonce : string;
}.

(** Modelled from the spec: [SessionState.CheckNonce] is defined in
    [pkg/apis/sessions]; the spec has the token's nonce compared exactly
    against the session's stored value. *)
Definition CheckNonce (s : SessionState) (nonce : string) : bool :=
  bool_decide (Nonce s = nonce).

Definition OIDCEmailClaim : string := "email".
Definition OIDCGroupsClaim : string := "groups".

(** The fields of [ProviderData] that the functions below read. *)
Record ProviderData : Type := mkProviderData {
  ProfileURL : option string;
  ClientSecret : string;
  ClientSecretFile : string;
  AllowUnverifiedEmail : bool;
  EmailClaim : string;
  GroupsClaim : string;
  getAuthorizationHeaderFunc : option (string -> option Header);
}.

(** [ioutil.ReadFile]: the file system, from a file name to the contents and
    the error. *)
Definition FileSystem : Type := string -> string * option error.

(** [GetClientSecret] returns its two results and what it logged with
    [logger.Errorf], as format and arguments. *)
Definition GetClientSecret (p : ProviderData) (fs : FileSystem)
  : (string * option error) * list (string * list fmt_arg) :=
  if bool_decide (ClientSecret p ≠ "") || bool_decide (ClientSecretFile p = "")
  then ((ClientSecret p, None), [])
  else
    match fs (ClientSecretFile p) with
    | (_, Some err) =>
        (("", Some (errors_New "could not read client secret file")),
         [("error reading client secret file %s: %s",
           [ArgString (ClientSecretFile p); ArgError err])])
    | (fileClientSecret, None) => ((fileClientSecret, None), [])
    end.

Definition getAuthorizationHeader (p : ProviderData) (accessToken : string) : option Header :=
  match getAuthorizationHeaderFunc p with
  | Some f => if bool_decide (accessToken ≠ "") then f accessToken else None
  | None => None
  end.

Definition getClaimExtractor (p : ProviderData) (idToken : IDToken) (accessToken : string)
  : option claimExtractor * option error :=
  match NewClaimExtractor context_TODO idToken (ProfileURL p)
          (getAuthorizationHeader p accessToken) with
  | (_, Some err) =>
      (None, Some (fmt_Errorf "could not initialise claim extractor: %v" [ArgError err]))
  | (extractor, None) => (extractor, None)
  end.

(** The session fields whose addresses [buildSessionFromClaims] hands out. *)
Inductive SessionField : Type := FUser | FEmail | FGroups | FPreferredUsername.

(** [&ss.f]: the pointer with what it points to. *)
Definition addr (ss : SessionState) (f : SessionField) : Dst :=
  match f with
  | FUser => PString (User ss)
  | FEmail => PString (Email ss)
  | FGroups => PStringSlice (Groups ss)
  | FPreferredUsername => PString (PreferredUsername ss)
  end.

(** What a [*bool] and a [*string] point to. *)
Definition load_bool (dst : Dst) : bool :=
  match dst with PBool b => b | _ => false end.

Definition load_string (dst : Dst) : string :=
  match dst with PString s => s | _ => "" end.

(** The session after a write through [&ss.f] left [dst] there. *)
Definition store (ss : SessionState) (f : SessionField) (dst : Dst) : SessionState :=
  match f, dst with
  | FUser, PString s =>
      {| User := s; Email := Email ss; Groups := Groups ss;
         PreferredUsername := PreferredUsername ss; Nonce := Nonce ss |}
  | FEmail, PString s =>
      {| User := User ss; Email := s; Groups := Groups ss;
         PreferredUsername := PreferredUsername ss; Nonce := Nonce ss |}
  | FGroups, PStringSlice l =>
      {| User := User ss; Email := Email ss; Groups := l;
         PreferredUsername := PreferredUsername ss; Nonce := Nonce ss |}
  | FPreferredUsername, PString s =>
      {| User := User ss; Email := Email ss; Groups := Groups ss;
         PreferredUsername := s; Nonce := Nonce ss |}
  | _, _ => ss
  end.

(** The map literal that [buildSessionFromClaims] ranges over: its entries
    are inserted in the order written, a later equal key replacing an
    earlier one. *)
Definition claimDsts (p : ProviderData) : gmap string SessionField :=
  <["preferred_username" := FPreferredUsername]>
    (<[GroupsClaim p := FGroups]>
       (<[EmailClaim p := FEmail]>
          (<["sub" := FUser]> ∅))).

(** Go ranges over a map in an order of its choosing: any arrangement of the
    entries. *)
Definition range_order (p : ProviderData) (order : list (string * SessionField)) : Prop :=
  order ≡ₚ map_to_list (claimDsts p).

(** [&sessions.SessionState{}] *)
Definition emptySession : SessionState :=
  {| User := ""; Email := ""; Groups := []; PreferredUsername := ""; Nonce := "" |}.

Section Assembly.
Context {lib : GoLib}.

(** The [for ... range] loop of [buildSessionFromClaims] over the entries in
    the order the run takes them; the error is the one the loop returns. *)
Fixpoint rangeClaims (entries : list (string * SessionField)) (ss : SessionState)
    (extractor : claimExtractor) (w : World)
  : option error * SessionState * claimExtractor * World :=
  match entries with
  | [] => (None, ss, extractor, w)
  | (claim, f) :: rest =>
      match GetClaimInto claim (addr ss f) extractor w with
      | ((_, Some err), _, extractor, w) => (Some err, ss, extractor, w)
      | ((_, None), dst, extractor, w) => rangeClaims rest (store ss f dst) extractor w
      end
  end.

(** [buildSessionFromClaims], [order] being the order in which the run
    ranges over the map literal; [idToken] is [None] for a [nil] pointer.
    [getClaimExtractor] returns an extractor or an error and never neither
    ([getClaimExtractor_total]), so the branch without both is never taken. *)
Definition buildSessionFromClaims (p : ProviderData) (idToken : option IDToken)
    (accessToken : string) (order : list (string * SessionField)) (w : World)
  : (option SessionState * option error) * World :=
  let ss := emptySession in
  match idToken with
  | None => ((Some ss, None), w)
  | Some idToken =>
      match getClaimExtractor p idToken accessToken with
      | (_, Some err) => ((None, Some err), w)
      | (None, None) => ((None, None), w)
      | (Some extractor, None) =>
          match rangeClaims order ss extractor w with
          | (Some err, _, _, w) => ((None, Some err), w)
          | (None, ss, extractor, w) =>
              let verifyEmail :=
                bool_decide (EmailClaim p = OIDCEmailClaim) && negb (AllowUnverifiedEmail p) in
              match GetClaimInto "email_verified" (PBool false) extractor w with
              | ((_, Some err), _, _, w) => ((None, Some err), w)
              | ((exists_, None), verified, _, w) =>
                  if verifyEmail && exists_ && negb (load_bool verified)
                  then ((None,
                         Some (fmt_Errorf "email in id_token (%s) isn't verified"
                                 [ArgString (Email ss)])), w)
                  else ((Some ss, None), w)
              end
          end
      end
  end.

(** [checkNonce] returns its error and the network; [idToken] is not [nil],
    as [NewClaimExtractor] calls a method of it. *)
Definition checkNonce (p : ProviderData) (s : SessionState) (idToken : IDToken) (w : World)
  : option error * World :=
  match getClaimExtractor p idToken "" with
  | (_, Some err) =>
      (Some (fmt_Errorf "id_token claims extraction failed: %v" [ArgError err]), w)
  | (None, None) => (None, w)
  | (Some extractor, None) =>
      match GetClaimInto "nonce" (PString "") extractor w with
      | ((_, Some err), _, _, w) =>
          (Some (fmt_Errorf "could not extract nonce from ID Token: %v" [ArgError err]), w)
      | ((_, None), nonce, _, w) =>
          if negb (CheckNonce s (load_string nonce))
          then (Some (errors_New "id_token nonce claim does not match the session nonce"), w)
          else (None, w)
      end
  end.
End Assembly.

(** ** A library to run the code with *)

(** An instance of [GoLib] for running the code on concrete claims. Finite
    numbers are written in full decimal expansion, which on integers is what
    Go writes; strings are escaped as [json.Marshal] escapes ASCII. *)

Definition dquote : ascii := ascii_of_nat 34.
Definition backslash : ascii := ascii_of_nat 92.

Definition hex_digit (n : N) : ascii :=
  ascii_of_N (if (n <? 10)%N then 48 + n else 87 + n).

Definition json_escape_char (a : ascii) : string :=
  let n := N_of_ascii a in
  if decide (a = dquote) then String backslash (String dquote "")
  else if decide (a = backslash) then String backslash (String backslash "")
  else if decide (n = 10%N) then String backslash "n"
  else if decide (n = 13%N) then String backslash "r"
  else if decide (n = 9%N) then String backslash "t"
  else if bool_decide (n < 32)%N || bool_decide (a ∈ ["<"; ">"; "&"]%char)
  then String backslash ("u00" +:+ String (hex_digit (n / 16)) (String (hex_digit (n mod 16)) ""))
  else String a "".

Fixpoint json_escape (s : string) : string :=
  match s with
  | "" => ""
  | String a r => json_escape_char a +:+ json_escape r
  end.

Definition json_quote (s : string) : string :=
  String dquote (json_escape s +:+ String dquote "").

Fixpoint strip_zeros (rev_digits : list ascii) : list ascii :=
  match rev_digits with
  | "0"%char :: r => strip_zeros r
  | _ => rev_digits
  end.

(** The decimal expansion of [m * 2^e]. *)
Definition format_finite (m : positive) (e : Z) : string :=
  if decide (0 ≤ e)%Z then pretty (Z.pos m * 2 ^ e)%Z
  else
    let k := (- e)%Z in
    let q := (Z.pos m / 2 ^ k)%Z in
    let r := (Z.pos m mod 2 ^ k)%Z in
    if decide (r = 0)%Z then pretty q
    else
      let digits := String.list_ascii_of_string (pretty (r * 5 ^ k)%Z) in
      let padded := (replicate (Z.to_nat k - length digits) "0"%char ++ digits)%list in
      pretty q +:+ "." +:+ String.string_of_list_ascii (reverse (strip_zeros (reverse padded))).

Definition format_float (f : float64) : string :=
  match f with
  | S754_zero s => if s then "-0" else "0"
  | S754_infinity s => if s then "-Inf" else "+Inf"
  | S754_nan => "NaN"
  | S754_finite s m e => (if s then "-" else "") +:+ format_finite m e
  end.

Definition join (sep : string) (l : list string) : string :=
  match l with
  | [] => ""
  | x :: r => foldl (λ acc y, acc +:+ sep +:+ y) x r
  end.

(** The JSON text of a value, members in the order of their keys; [None]
    where [json.Marshal] has no text to give. *)
Fixpoint json_text (v : any) : option string :=
  match v with
  | VNil => Some "null"
  | VBool b => Some (strconv_FormatBool b)
  | VFloat f =>
      match f with
      | S754_nan | S754_infinity _ => None
      | _ => Some (format_float f)
      end
  | VString s => Some (json_quote s)
  | VSlice l => (λ e, "[" +:+ join "," e +:+ "]") <$> mapM json_text l
  | VMap m =>
      (λ e, "{" +:+ join "," ((λ kv, json_quote kv.1 +:+ ":" +:+ kv.2) <$> e) +:+ "}") <$>
        mapM (λ kv : string * option string, (kv.1,.) <$> kv.2)
          (merge_sort (λ x y, String.le x.1 y.1) (map_to_list (json_text <$> m)))
  end.

Definition goLib : GoLib := {|
  strconv_FormatFloat := format_float;
  cast_ToBool_float64 f := match f with S754_zero _ => false | _ => true end;
  json_Marshal v :=
    match json_text v with
    | Some text => (text, None)
    | None => ("", Some (errors_New "json: unsupported value"))
    end;
|}.

(** A reader of JSON text, for the texts above: numbers are read when they
    are integers, [\u] escapes when they are ASCII. *)
Definition is_space (a : ascii) : bool :=
  bool_decide (N_of_ascii a ∈ [32; 9; 10; 13]%N).

Fixpoint skip_space (s : string) : string :=
  match s with
  | String a r => if is_space a then skip_space r else s
  | "" => ""
  end.

Definition hex_value (a : ascii) : option N :=
  let n := N_of_ascii a in
  if bool_decide (48 ≤ n ≤ 57)%N then Some (n - 48)%N
  else if bool_decide (97 ≤ n ≤ 102)%N then Some (n - 87)%N
  else if bool_decide (65 ≤ n ≤ 70)%N then Some (n - 55)%N
  else None.

Definition unescape (e : ascii) : option ascii :=
  if decide (e = dquote) then Some dquote
  else if decide (e = backslash) then Some backslash
  else if decide (e = "/"%char) then Some "/"%char
  else if decide (e = "b"%char) then Some (ascii_of_nat 8)
  else if decide (e = "f"%char) then Some (ascii_of_nat 12)
  else if decide (e = "n"%char) then Some (ascii_of_nat 10)
  else if decide (e = "r"%char) then Some (ascii_of_nat 13)
  else if decide (e = "t"%char) then Some (ascii_of_nat 9)
  else None.

(** The characters up to the closing quote, and what follows it. *)
Fixpoint read_string (s : string) : option (string * string) :=
  match s with
  | "" => None
  | String a r =>
      if decide (a = dquote) then Some ("", r)
      else if decide (a = backslash) then
        match r with
        | String "u" (String h1 (String h2 (String h3 (String h4 r')))) =>
            h1 ← hex_value h1; h2 ← hex_value h2; h3 ← hex_value h3; h4 ← hex_value h4;
            guard (h1 = 0 ∧ h2 = 0 ∧ h3 < 8)%N;;
            '(str, rest) ← read_string r';
            Some (String (ascii_of_N (16 * h3 + h4)) str, rest)
        | String e r' =>
            c ← unescape e;
            '(str, rest) ← read_string r';
            Some (String c str, rest)
        | "" => None
        end
      else if bool_decide (N_of_ascii a < 32)%N then None
      else '(str, rest) ← read_string r; Some (String a str, rest)
  end.

Definition is_digit (a : ascii) : bool :=
  bool_decide (48 ≤ N_of_ascii a ≤ 57)%N.

(** The digits at the head of [s], as the number they write after [acc]. *)
Fixpoint read_digits (s : string) (acc : Z) : Z * string :=
  match s with
  | String a r =>
      if is_digit a then read_digits r (10 * acc + (Z.of_N (N_of_ascii a) - 48))%Z
      else (acc, s)
  | "" => (acc, "")
  end.

Definition float64_of_Z (negative : bool) (z : Z) : float64 :=
  binary_normalize 53 1024 (if negative then - z else z)%Z 0 negative.

Definition read_number (s : string) : option (float64 * string) :=
  let '(negative, s) :=
    match s with String "-" r => (true, r) | _ => (false, s) end in
  match s with
  | String a r =>
      if is_digit a then
        let '(z, rest) := read_digits s 0 in
        match a, r, rest with
        | "0"%char, String b _, _ => if is_digit b then None else
            match rest with
            | String c _ => if bool_decide (c ∈ ["."; "e"; "E"]%char) then None
                            else Some (float64_of_Z negative z, rest)
            | "" => Some (float64_of_Z negative z, rest)
            end
        | _, _, String c _ =>
            if bool_decide (c ∈ ["."; "e"; "E"]%char) then None
            else Some (float64_of_Z negative z, rest)
        | _, _, "" => Some (float64_of_Z negative z, rest)
        end
      else None
  | "" => None
  end.

Fixpoint read_value (fuel : nat) (s : string) : option (any * string) :=
  match fuel with
  | 0 => None
  | S fuel =>
      match skip_space s with
      | String "n" (String "u" (String "l" (String "l" r))) => Some (VNil, r)
      | String "t" (String "r" (String "u" (String "e" r))) => Some (VBool true, r)
      | String "f" (String "a" (String "l" (String "s" (String "e" r)))) => Some (VBool false, r)
      | String "[" r =>
          match skip_space r with
          | String "]" r' => Some (VSlice [], r')
          | _ => '(l, rest) ← read_elements fuel r []; Some (VSlice l, rest)
          end
      | String "{" r =>
          match skip_space r with
          | String "}" r' => Some (VMap ∅, r')
          | _ => '(m, rest) ← read_members fuel r ∅; Some (VMap m, rest)
          end
      | String a r =>
          if decide (a = dquote) then '(str, rest) ← read_string r; Some (VString str, rest)
          else '(f, rest) ← read_number (String a r); Some (VFloat f, rest)
      | "" => None
      end
  end
with read_elements (fuel : nat) (s : string) (acc : list any) : option (list any * string) :=
  match fuel with
  | 0 => None
  | S fuel =>
      '(v, rest) ← read_value fuel s;
      match skip_space rest with
      | String "," r => read_elements fuel r (acc ++ [v])%list
      | String "]" r => Some ((acc ++ [v])%list, r)
      | _ => None
      end
  end
with read_members (fuel : nat) (s : string) (acc : gmap string any)
  : option (gmap string any * string) :=
  match fuel with
  | 0 => None
  | S fuel =>
      match skip_space s with
      | String a r =>
          if decide (a = dquote) then
            '(k, rest) ← read_string r;
            match skip_space rest with
            | String ":" r =>
                '(v, rest) ← read_value fuel r;
                match skip_space rest with
                | String "," r => read_members fuel r (<[k := v]> acc)
                | String "}" r => Some (<[k := v]> acc, r)
                | _ => None
                end
            | _ => None
            end
          else None
      | "" => None
      end
  end.

(** [json.Unmarshal] into an [interface{}], on the texts this reader reads. *)
Definition json_read (text : string) : option any :=
  '(v, rest) ← read_value (S (String.length text)) text;
  match skip_space rest with
  | "" => Some v
  | _ => None
  end.

(** ** Sequences of lookups on one extractor *)

(** A call of one of the two methods of [ClaimExtractor]. *)
Inductive call : Type :=
  | CallGetClaim (claim : string)
  | CallGetClaimInto (claim : string) (dst : Dst).

(** A profile request populates the extractor when it returns a mapping and
    no error. *)
Definition populating (x : Request * Response) : bool :=
  match x.2 with
  | (Some _, None) => true
  | _ => false
  end.

Section Runs.
Context {lib : GoLib}.

Definition step (k : call) (c : claimExtractor) (w : World) : claimExtractor * World :=
  match k with
  | CallGetClaim claim => let '(_, c, w) := GetClaim claim c w in (c, w)
  | CallGetClaimInto claim dst => let '(_, _, c, w) := GetClaimInto claim dst c w in (c, w)
  end.

Fixpoint run (calls : list call) (c : claimExtractor) (w : World) : claimExtractor * World :=
  match calls with
  | [] => (c, w)
  | k :: rest => let '(c, w) := step k c w in run rest c w
  end.
End Runs.

(** The request the extractor makes of the profile endpoint. *)
Definition profileRequest (url : string) (headers : Header) (c : claimExtractor) : Request :=
  {| reqURL := url; reqCtx := ctx c; reqHeaders := headers |}.

(** The network after one more request. *)
Definition after_request (req : Request) (w : World) : World :=
  {| issued := issued w ++ [(req, respond w (length (issued w)) req)];
     respond := respond w |}.

(** What a lookup can do to the extractor and to the network: nothing; or, the
    profile claims being unpopulated, store the empty mapping where there is
    no profile URL or there are no headers; or issue the one request, and
    store what it returned unless it failed. *)
Inductive lookup_effect (c : claimExtractor) (w : World) : claimExtractor -> World -> Prop :=
  | effect_none :
      lookup_effect c w c w
  | effect_skip :
      profileClaims c = None ->
      profileURL c = None \/ requestHeaders c = None ->
      lookup_effect c w (set_profileClaims c (Some ∅)) w
  | effect_failed url headers claims err :
      profileClaims c = None ->
      profileURL c = Some url -> requestHeaders c = Some headers ->
      respond w (length (issued w)) (profileRequest url headers c) = (claims, Some err) ->
      lookup_effect c w c (after_request (profileRequest url headers c) w)
  | effect_fetched url headers claims :
      profileClaims c = None ->
      profileURL c = Some url -> requestHeaders c = Some headers ->
      respond w (length (issued w)) (profileRequest url headers c) = (claims, None) ->
      lookup_effect c w (set_profileClaims c claims)
        (after_request (profileRequest url headers c) w).

(** ** Claims and settings to run the code on *)

Definition bearer (accessToken : string) : option Header :=
  Some {[ "Authorization" := ["Bearer " +:+ accessToken] ]}.

Definition exampleClaims : ClaimSet :=
  <["groups" := VSlice [VString "g1"; VString "g2"]]>
    (<["email_verified" := VBool false]>
       (<["email" := VString "a@example.com"]>
          (<["sub" := VString "u1"]> ∅))).

Definition exampleToken : IDToken := {| Claims := (exampleClaims, None) |}.

Definition exampleProvider (url : option string) : ProviderData :=
  {| ProfileURL := url; ClientSecret := ""; ClientSecretFile := "/etc/oauth2-proxy/secret";
     AllowUnverifiedEmail := false; EmailClaim := "email"; GroupsClaim := "groups";
     getAuthorizationHeaderFunc := Some bearer |}.

(** A profile endpoint that cannot be reached, and one that answers with
    the claims [m]. *)
Definition unreachable : World :=
  {| issued := []; respond := λ _ _, (None, Some (errors_New "connection refused")) |}.

Definition serving (m : ClaimSet) : World :=
  {| issued := []; respond := λ _ _, (Some m, None) |}.

(** An extractor over [exampleClaims] with a profile endpoint and headers. *)
Definition exampleExtractor : claimExtractor :=
  {| profileURL := Some "https://idp.example.com/userinfo"; ctx := context_TODO;
     requestHeaders := bearer "at"; tokenClaims := exampleClaims; profileClaims := None |}.

(** A file system without the secret file. *)
Definition noSecretFile : FileSystem :=
  λ name, ("", Some (fmt_Errorf "open %s: no such file or directory" [ArgString name])).

(** [GetClientSecret] got to read the file and the read failed. *)
Definition read_fails (p : ProviderData) (fs : FileSystem) : Prop :=
  ClientSecret p = "" ∧ ClientSecretFile p ≠ "" ∧ (fs (ClientSecretFile p)).2 ≠ None.

(** The scalars of JSON but [null]. *)
Definition scalar (v : any) : bool :=
  match v with
  | VBool _ | VFloat _ | VString _ => true
  | _ => false
  end.

(** What a call may change of the extractor [c] and the network [w]: no
    field but [profileClaims], and that one only from [nil] to what
    [getProfileClaims] returned without error; the endpoint is left as it is. *)
Definition only_profileClaims_written (c : claimExtractor) (w : World)
    (c' : claimExtractor) (w' : World) : Prop :=
  profileURL c' = profileURL c ∧ ctx c' = ctx c ∧
  requestHeaders c' = requestHeaders c ∧ tokenClaims c' = tokenClaims c ∧
  (profileClaims c' = profileClaims c ∨
   profileClaims c = None ∧ (getProfileClaims c w).1 = (profileClaims c', None)) ∧
  respond w' = respond w.

(** The extractor never fetches: it has no profile URL or no headers, and its
    profile claims are unpopulated or the empty mapping. *)
Definition skips_profile (c : claimExtractor) : Prop :=
  (profileURL c = None ∨ requestHeaders c = None) ∧
  (profileClaims c = None ∨ profileClaims c = Some ∅).

(** A structured claim: a profile with a nested address and a list. *)
Definition exampleObject : ClaimSet :=
  <["address" := VMap (<["country" := VString "NL"]> (<["city" := VString "Delft"]> ∅))]>
    (<["roles" := VSlice [VString "admin"; VString "a<b"; VNil; VFloat (float64_of_Z false 42)]]>
       (<["active" := VBool true]> ∅)).

(** The values that [json_text] writes and [json_read] reads back. *)
Definition read_back (v : any) : Prop :=
  json_text v ≫= json_read = Some v.

(** ** Allowed groups and provider defaults *)

(** [SetAllowedGroups] returns the new [AllowedGroups], a
    [map[string]struct{}]: the map is made afresh and every group is put
    into it in turn. *)
Definition SetAllowedGroups (groups : list string) : gset string :=
  foldl (λ allowed group, {[ group ]} ∪ allowed) ∅ groups.

(** [defaultURL], a [*url.URL] being the [String()] of the URL, [None] for
    [nil]; [&url.URL{}] is the URL whose [String()] is empty. *)
Definition defaultURL (u d : option string) : option string :=
  match u with
  | Some s =>
      if bool_decide (s ≠ "") then u
      else match d with Some _ => d | None => Some "" end
  | None => match d with Some _ => d | None => Some "" end
  end.

Module providerDefaults.
(** The struct [providerDefaults]. *)
Record t : Type := mk {
  name : string;
  loginURL : option string;
  redeemURL : option string;
  profileURL : option string;
  validateURL : option string;
  scope : string;
}.
End providerDefaults.

(** The fields of [ProviderData] that [setProviderDefaults] writes, but for
    [ProfileURL], which [ProviderData] above has. *)
Record ProviderEndpoints : Type := mkProviderEndpoints {
  ProviderName : string;
  LoginURL : option string;
  RedeemURL : option string;
  ValidateURL : option string;
  Scope : string;
}.

(** [setProviderDefaults], on the two parts of the provider data. *)
Definition setProviderDefaults (defaults : providerDefaults.t)
    (p : ProviderData) (e : ProviderEndpoints) : ProviderData * ProviderEndpoints :=
  ({| ProfileURL := defaultURL (ProfileURL p) (providerDefaults.profileURL defaults);
      ClientSecret := ClientSecret p; ClientSecretFile := ClientSecretFile p;
      AllowUnverifiedEmail := AllowUnverifiedEmail p;
      EmailClaim := EmailClaim p; GroupsClaim := GroupsClaim p;
      getAuthorizationHeaderFunc := getAuthorizationHeaderFunc p |},
   {| ProviderName := providerDefaults.name defaults;
      LoginURL := defaultURL (LoginURL e) (providerDefaults.loginURL defaults);
      RedeemURL := defaultURL (RedeemURL e) (providerDefaults.redeemURL defaults);
      ValidateURL := defaultURL (ValidateURL e) (providerDefaults.validateURL defaults);
      Scope := if bool_decide (Scope e = "") then providerDefaults.scope defaults
               else Scope e |}).

(** A provider configured with nothing but its claims, and defaults that
    name no profile URL. *)
Definition bareEndpoints : ProviderEndpoints :=
  {| ProviderName := ""; LoginURL := None; RedeemURL := Some "https://idp.example.com/token";
     ValidateURL := None; Scope := "" |}.

Definition exampleDefaults : providerDefaults.t :=
  {| providerDefaults.name := "OpenID Connect";
     providerDefaults.loginURL := Some "https://idp.example.com/authorize";
     providerDefaults.redeemURL := None;
     providerDefaults.profileURL := None;
     providerDefaults.validateURL := None;
     providerDefaults.scope := "openid email profile" |}.

(** A slice entry that [json.Marshal] of [goLib] has no text for. *)
Definition notANumber : any := VSlice [VFloat S754_nan].

(** The profile claims an endpoint may serve. *)
Definition exampleProfile : ClaimSet :=
  <["name" := VString "Ada"]> (<["sub" := VString "from-profile"]> ∅).

(** A provider that allows unverified emails, and one that takes the
    email from the [sub] claim. *)
Definition lenientProvider : ProviderData :=
  {| ProfileURL := None; ClientSecret := "s3cret"; ClientSecretFile := "";
     AllowUnverifiedEmail := true; EmailClaim := "email"; GroupsClaim := "groups";
     getAuthorizationHeaderFunc := Some bearer |}.

Definition subAsEmailProvider : ProviderData :=
  {| ProfileURL := None; ClientSecret := "s3cret"; ClientSecretFile := "";
     AllowUnverifiedEmail := true; EmailClaim := "sub"; GroupsClaim := "groups";
     getAuthorizationHeaderFunc := None |}.

(* ================================================================== *)
(** * Properties *)

(** ** Lookups one at a time *)

Lemma GetClaim_empty_name c w :
  GetClaim "" c w = ((VNil, false, None), c, w).
Proof. reflexivity. Qed.

Lemma GetClaim_token claim value c w :
  claim ≠ "" → tokenClaims c !! claim = Some value →
  GetClaim claim c w = ((value, true, None), c, w).
Proof.
  intros Hne Hin. unfold GetClaim.
  destruct (decide (claim = "")) as [->|_]; [done|]. by rewrite Hin.
Qed.

(** A lookup that the token claims do not answer and that finds the profile
    claims populated reads them and touches nothing. *)
Lemma GetClaim_populated claim m c w :
  claim ≠ "" → tokenClaims c !! claim = None → profileClaims c = Some m →
  GetClaim claim c w =
    (match m !! claim with Some v => (v, true, None) | None => (VNil, false, None) end, c, w).
Proof.
  intros Hne Hmiss Hpop. unfold GetClaim.
  destruct (decide (claim = "")) as [->|_]; [done|].
  rewrite Hmiss, Hpop. simpl. rewrite Hpop. simpl. by destruct (m !! claim).
Qed.

(** The same lookup on an unpopulated extractor calls [getProfileClaims]
    once: an error is passed on and the extractor stays as it was; else
    the result is stored, [nil] or not, and read. *)
Lemma GetClaim_unpopulated claim c w :
  claim ≠ "" → tokenClaims c !! claim = None → profileClaims c = None →
  GetClaim claim c w =
    match getProfileClaims c w with
    | ((_, Some err), w') =>
        ((VNil, false,
          Some (fmt_Errorf "failed to fetch claims from profile URL: %v" [ArgError err])), c, w')
    | ((pc, None), w') =>
        (match pc ≫= (.!! claim) with Some v => (v, true, None) | None => (VNil, false, None) end,
         set_profileClaims c pc, w')
    end.
Proof.
  intros Hne Hmiss Hnil. unfold GetClaim.
  destruct (decide (claim = "")) as [->|_]; [done|].
  rewrite Hmiss, Hnil.
  destruct (getProfileClaims c w) as [[pc [err|]] w']; simpl; [done|].
  by destruct (pc ≫= (.!! claim)).
Qed.

(** [getProfileClaims] issues at most one request, and none without a
    profile URL or without headers. *)
Lemma getProfileClaims_skip c w :
  profileURL c = None ∨ requestHeaders c = None →
  getProfileClaims c w = ((Some ∅, None), w).
Proof.
  intros [H|H]; unfold getProfileClaims; rewrite H; [done|].
  by destruct (profileURL c).
Qed.

Lemma getProfileClaims_fetch url headers c w :
  profileURL c = Some url → requestHeaders c = Some headers →
  getProfileClaims c w =
    (match respond w (length (issued w)) (profileRequest url headers c) with
     | (_, Some err) =>
         (None, Some (fmt_Errorf "error making request to profile URL: %v" [ArgError err]))
     | (claims, None) => (claims, None)
     end,
     after_request (profileRequest url headers c) w).
Proof.
  intros Hu Hh. unfold getProfileClaims, requests_Do. rewrite Hu, Hh.
  unfold after_request, profileRequest. simpl.
  by destruct (respond w _ _) as [claims [err|]].
Qed.

(** Every lookup has one of the effects of [lookup_effect]. *)
Lemma GetClaim_effect claim c w :
  lookup_effect c w (GetClaim claim c w).1.2 (GetClaim claim c w).2.
Proof.
  destruct (decide (claim = "")) as [->|Hne]; [constructor|].
  destruct (tokenClaims c !! claim) as [v|] eqn:Htok.
  { rewrite (GetClaim_token _ v) by done. constructor. }
  destruct (profileClaims c) as [m|] eqn:Hpc.
  { rewrite (GetClaim_populated _ m) by done. constructor. }
  rewrite GetClaim_unpopulated by done.
  destruct (profileURL c) as [url|] eqn:Hu; [destruct (requestHeaders c) as [h|] eqn:Hh|].
  - rewrite (getProfileClaims_fetch url h) by done. simpl.
    destruct (respond w _ _) as [claims [err|]] eqn:Hr; simpl.
    + by eapply effect_failed.
    + by eapply effect_fetched.
  - rewrite getProfileClaims_skip by auto. simpl. apply effect_skip; auto.
  - rewrite getProfileClaims_skip by auto. simpl. apply effect_skip; auto.
Qed.

Section LookupEffects.
Context {lib : GoLib}.

Lemma GetClaimInto_state claim dst c w :
  (GetClaimInto claim dst c w).1.2 = (GetClaim claim c w).1.2 ∧
  (GetClaimInto claim dst c w).2 = (GetClaim claim c w).2.
Proof.
  unfold GetClaimInto.
  destruct (GetClaim claim c w) as [[[[v []] [err|]] c'] w']; simpl; try done.
  by destruct (coerceClaim v dst) as [d [e|]].
Qed.

Lemma GetClaimInto_effect claim dst c w :
  lookup_effect c w (GetClaimInto claim dst c w).1.2 (GetClaimInto claim dst c w).2.
Proof.
  destruct (GetClaimInto_state claim dst c w) as [-> ->]. apply GetClaim_effect.
Qed.

Lemma step_effect k c w :
  lookup_effect c w (step k c w).1 (step k c w).2.
Proof.
  destruct k as [claim|claim dst]; simpl.
  - pose proof (GetClaim_effect claim c w) as H.
    by destruct (GetClaim claim c w) as [[r c'] w'].
  - pose proof (GetClaimInto_effect claim dst c w) as H.
    by destruct (GetClaimInto claim dst c w) as [[[r d] c'] w'].
Qed.
End LookupEffects.

(** ** Sequences of lookups *)

Lemma lookup_effect_populated c w c' w' :
  lookup_effect c w c' w' → is_Some (profileClaims c) → c' = c ∧ w' = w.
Proof.
  intros [] [m Hm]; [done|congruence..].
Qed.

Lemma populating_failed req claims err : populating (req, (claims, Some err)) = false.
Proof. by destruct claims. Qed.

Section Sequences.
Context {lib : GoLib}.

Lemma run_populated calls c w :
  is_Some (profileClaims c) → run calls c w = (c, w).
Proof.
  intros Hpop. induction calls as [|k rest IH]; [done|]. simpl.
  pose proof (step_effect k c w) as He.
  destruct (step k c w) as [c1 w1]. simpl in He.
  by destruct (lookup_effect_populated _ _ _ _ He Hpop) as [-> ->].
Qed.

(** Over a run, the requests issued extend the log, at most one of them
    populating, and none at all from a populated extractor. *)
Lemma run_requests calls c w :
  ∃ new, issued (run calls c w).2 = issued w ++ new
         ∧ respond (run calls c w).2 = respond w
         ∧ (length (filter (λ x, populating x = true) new) ≤ 1)%nat
         ∧ (is_Some (profileClaims c) → new = []).
Proof.
  revert c w. induction calls as [|k rest IH]; intros c w; simpl.
  { exists []. rewrite app_nil_r. repeat split; simpl; auto. }
  pose proof (step_effect k c w) as He.
  destruct (step k c w) as [c1 w1]. simpl in He.
  destruct He as [|Hnil Hskip|url headers claims err Hnil Hu Hh Hr
                  |url headers claims Hnil Hu Hh Hr].
  - apply IH.
  - rewrite run_populated by (simpl; eauto). exists []. rewrite app_nil_r.
    repeat split; simpl; auto.
  - destruct (IH c (after_request (profileRequest url headers c) w))
      as (new & Hnew & Hresp & Hcount & _).
    eexists (_ :: new). rewrite Hnew, Hresp. simpl. rewrite <- app_assoc. simpl.
    split; [reflexivity|]. split; [done|]. split.
    + rewrite Hr, filter_cons_False; [done|]. by rewrite populating_failed.
    + intros [m Hm]. congruence.
  - destruct (IH (set_profileClaims c claims)
                (after_request (profileRequest url headers c) w))
      as (new & Hnew & Hresp & Hcount & Hpop).
    eexists (_ :: new). rewrite Hnew, Hresp. simpl. rewrite <- app_assoc. simpl.
    split; [reflexivity|]. split; [done|]. split.
    + rewrite Hr. destruct claims as [m|].
      * rewrite Hpop by (simpl; eauto). rewrite filter_cons.
        destruct (decide _); simpl; lia.
      * by rewrite filter_cons_False.
    + intros [m Hm]. congruence.
Qed.
End Sequences.

Lemma lookup_effect_frame c w c' w' :
  lookup_effect c w c' w' → only_profileClaims_written c w c' w'.
Proof.
  unfold only_profileClaims_written.
  intros [|Hnil Hskip|url headers claims err Hnil Hu Hh Hr|url headers claims Hnil Hu Hh Hr];
    simpl; repeat split; auto.
  - right. split; [done|]. by rewrite getProfileClaims_skip.
  - right. split; [done|]. rewrite (getProfileClaims_fetch url headers) by done.
    by rewrite Hr.
Qed.

Lemma lookup_effect_skips c w c' w' :
  lookup_effect c w c' w' → skips_profile c → skips_profile c' ∧ w' = w.
Proof.
  unfold skips_profile.
  intros [|Hnil Hskip|url headers claims err Hnil Hu Hh Hr|url headers claims Hnil Hu Hh Hr]
    [Hs Hp]; simpl; auto.
  - destruct Hs; congruence.
  - destruct Hs; congruence.
Qed.

Lemma GetClaim_skips claim c w :
  skips_profile c → tokenClaims c !! claim = None →
  (GetClaim claim c w).1.1 = (VNil, false, None).
Proof.
  intros [Hs Hp] Hmiss.
  destruct (decide (claim = "")) as [->|Hne]; [done|].
  destruct Hp as [Hp|Hp].
  - rewrite GetClaim_unpopulated, getProfileClaims_skip by done. simpl.
    by rewrite lookup_empty.
  - rewrite (GetClaim_populated _ ∅) by done. by rewrite lookup_empty.
Qed.

Section SequencesFrame.
Context {lib : GoLib}.

Lemma run_skips calls c w :
  skips_profile c →
  skips_profile (run calls c w).1 ∧ (run calls c w).2 = w
  ∧ tokenClaims (run calls c w).1 = tokenClaims c.
Proof.
  revert c w. induction calls as [|k rest IH]; intros c w Hs; [done|]. simpl.
  pose proof (step_effect k c w) as He.
  destruct (step k c w) as [c1 w1]. simpl in He.
  destruct (lookup_effect_skips _ _ _ _ He Hs) as [Hs1 ->].
  destruct (IH c1 w Hs1) as (? & ? & ->).
  by destruct (lookup_effect_frame _ _ _ _ He) as (_ & _ & _ & -> & _).
Qed.

Lemma GetClaimInto_dst claim dst c w :
  (GetClaimInto claim dst c w).1.1.2 = dst ∨
  (GetClaimInto claim dst c w).1.1.1 = (true, None) ∧
  ∃ v, (GetClaim claim c w).1.1 = (v, true, None) ∧
       coerceClaim v dst = ((GetClaimInto claim dst c w).1.1.2, None).
Proof.
  unfold GetClaimInto.
  destruct (GetClaim claim c w) as [[[[v []] [err|]] c'] w']; simpl; auto.
  destruct (coerceClaim v dst) as [d [e|]] eqn:Hco; simpl.
  - left. destruct dst; simpl in Hco; repeat case_match; by simplify_eq.
  - right. eauto.
Qed.
End SequencesFrame.

(* ================================================================== *)
(** * The claims of the specification *)

(** C9. [GetClaim] with the empty claim name returns [(nil, false, nil)]
    whatever the token claims and the profile claims are, and leaves the
    extractor and the network as they were: neither claim set is read and
    no profile request is issued. *)
Theorem GetClaim_empty_claim_name_is_noop (c : claimExtractor) (w : World) :
  GetClaim "" c w = ((VNil, false, None), c, w).
Proof. apply GetClaim_empty_name. Qed.

(** C2, as the code has it. For every non-empty claim name present in the
    token claims, [GetClaim] returns the token value with [found = true]
    and no error, whatever the profile claims hold, and leaves the extractor
    and the network untouched: the profile is neither read nor fetched. *)
Theorem token_claim_wins (claim : string) (value : any) (c : claimExtractor) (w : World) :
  claim ≠ "" → tokenClaims c !! claim = Some value →
  GetClaim claim c w = ((value, true, None), c, w).
Proof. apply GetClaim_token. Qed.

Lemma token_claim_wins_witness :
  GetClaim "sub" (set_profileClaims exampleExtractor (Some {[ "sub" := VString "other" ]}))
    unreachable
  = ((VString "u1", true, None),
     set_profileClaims exampleExtractor (Some {[ "sub" := VString "other" ]}), unreachable).
Proof. apply token_claim_wins; [discriminate|reflexivity]. Defined.

(** C2 as stated fails on the empty name: a token whose claims have the key
    [""] does not get that value back. *)
Lemma empty_token_key_not_returned :
  let c := {| profileURL := None; ctx := context_TODO; requestHeaders := None;
              tokenClaims := {[ "" := VString "x" ]}; profileClaims := None |} in
  tokenClaims c !! "" = Some (VString "x") ∧
  GetClaim "" c unreachable = ((VNil, false, None), c, unreachable) ∧
  (GetClaim "" c unreachable).1.1 ≠ (VString "x", true, None).
Proof. repeat split. discriminate. Qed.

(** C10. A call of [GetClaim] or of [GetClaimInto] leaves the token claims,
    the profile URL, the request headers and the context of the extractor as
    they were; the profile claims change at most from unpopulated to what
    [getProfileClaims] returned; the endpoint stays the same; and
    [GetClaimInto] leaves its destination as it was unless it reports the
    claim found, when the destination holds the coerced value. *)
Theorem lookups_write_only_profileClaims {lib : GoLib} :
  (∀ claim c w,
     only_profileClaims_written c w (GetClaim claim c w).1.2 (GetClaim claim c w).2) ∧
  (∀ claim dst c w,
     only_profileClaims_written c w
       (GetClaimInto claim dst c w).1.2 (GetClaimInto claim dst c w).2 ∧
     ((GetClaimInto claim dst c w).1.1.2 = dst ∨
      (GetClaimInto claim dst c w).1.1.1 = (true, None) ∧
      ∃ v, (GetClaim claim c w).1.1 = (v, true, None) ∧
           coerceClaim v dst = ((GetClaimInto claim dst c w).1.1.2, None))).
Proof.
  split.
  - intros. apply lookup_effect_frame, GetClaim_effect.
  - intros. split.
    + apply lookup_effect_frame, GetClaimInto_effect.
    + apply GetClaimInto_dst.
Qed.

(** C1, as the code has it. Over any sequence of [GetClaim] and
    [GetClaimInto] calls on an extractor, the profile requests issued are
    added to the log, at most one of them returns a mapping that populates
    the profile claims, and none is issued once they are populated. A
    request that fails makes the lookup return an error and leaves the
    extractor as it was: the failure is not recorded, and any later lookup of
    a name the token claims lack issues the request again. *)
Theorem profile_populated_at_most_once {lib : GoLib}
    (calls : list call) (c : claimExtractor) (w : World) :
  (∃ new, issued (run calls c w).2 = issued w ++ new
          ∧ (length (filter (λ x, populating x = true) new) ≤ 1)%nat
          ∧ (is_Some (profileClaims c) → new = [])) ∧
  (∀ claim v found err c' w',
     GetClaim claim c w = ((v, found, Some err), c', w') →
     c' = c ∧
     ∃ url headers,
       w' = after_request (profileRequest url headers c) w ∧
       ∀ claim' w2, claim' ≠ "" → tokenClaims c !! claim' = None →
         (GetClaim claim' c w2).2 = after_request (profileRequest url headers c) w2).
Proof.
  split.
  { destruct (run_requests calls c w) as (new & ? & ? & ? & ?). eauto. }
  intros claim v found err c' w' Hget.
  destruct (decide (claim = "")) as [->|Hne]; [by rewrite GetClaim_empty_name in Hget|].
  destruct (tokenClaims c !! claim) as [tv|] eqn:Htok.
  { by rewrite (GetClaim_token _ tv) in Hget. }
  destruct (profileClaims c) as [m|] eqn:Hpc.
  { rewrite (GetClaim_populated _ m) in Hget by done. by destruct (m !! claim). }
  rewrite GetClaim_unpopulated in Hget by done.
  destruct (profileURL c) as [url|] eqn:Hu; [destruct (requestHeaders c) as [h|] eqn:Hh|];
    [|by rewrite getProfileClaims_skip in Hget by auto; simplify_eq/=..].
  rewrite (getProfileClaims_fetch url h) in Hget by done.
  destruct (respond w _ _) as [claims [e|]] eqn:Hr; simplify_eq/=.
  - split; [done|]. exists url, h. split; [done|].
    intros claim' w2 Hne' Hmiss.
    rewrite GetClaim_unpopulated, (getProfileClaims_fetch url h) by done.
    destruct (respond w2 _ _) as [claims2 [e2|]]; [done|].
    by destruct (claims2 ≫= _).
  - by destruct (claims ≫= _).
Qed.

Lemma profile_populated_at_most_once_witness :
  ∃ url headers,
    (GetClaim "name" exampleExtractor unreachable).2
    = after_request (profileRequest url headers exampleExtractor) unreachable ∧
    (GetClaim "picture" exampleExtractor (GetClaim "name" exampleExtractor unreachable).2).2
    = after_request (profileRequest url headers exampleExtractor)
        (GetClaim "name" exampleExtractor unreachable).2.
Proof.
  destruct (proj2 (profile_populated_at_most_once (lib := goLib) [] exampleExtractor unreachable)
              "name" _ _ _ _ _ eq_refl) as (_ & url & headers & Hw & Hretry).
  exists url, headers. split.
  - exact Hw.
  - apply Hretry; [discriminate|reflexivity].
Defined.

(** C1 as stated fails: after a request that failed, the next lookup that
    misses the token claims issues a second request. *)
Lemma failed_fetch_is_retried :
  NewClaimExtractor context_TODO exampleToken (Some "https://idp.example.com/userinfo")
    (bearer "at") = (Some exampleExtractor, None) ∧
  (GetClaim "name" exampleExtractor unreachable).1.1
  = (VNil, false,
     Some (fmt_Errorf "failed to fetch claims from profile URL: %v"
             [ArgError (fmt_Errorf "error making request to profile URL: %v"
                          [ArgError (errors_New "connection refused")])])) ∧
  length (issued (run (lib := goLib) [CallGetClaim "name"; CallGetClaim "picture"]
                    exampleExtractor unreachable).2) = 2.
Proof. repeat split. Qed.

(** C5. An extractor made without a profile URL, or without request
    headers, answers every lookup of a name the token claims lack with
    not found and no error, after any sequence of calls, and no call ever
    issues a request: the profile claims are the empty mapping. *)
Theorem no_profile_means_not_found {lib : GoLib}
    (ctx : Context_) (idToken : IDToken) (url : option string) (headers : option Header)
    (c0 : claimExtractor) (calls : list call) (w : World) (claim : string) :
  NewClaimExtractor ctx idToken url headers = (Some c0, None) →
  url = None ∨ headers = None →
  tokenClaims c0 !! claim = None →
  (run calls c0 w).2 = w ∧
  GetClaim claim (run calls c0 w).1 w
  = ((VNil, false, None), (GetClaim claim (run calls c0 w).1 w).1.2, w) ∧
  (claim ≠ "" → profileClaims (GetClaim claim (run calls c0 w).1 w).1.2 = Some ∅).
Proof.
  intros Hnew Hno Hmiss.
  assert (skips_profile c0) as Hs.
  { unfold NewClaimExtractor in Hnew. destruct (Claims idToken) as [m [e|]]; [done|].
    simplify_eq. split; simpl; auto. }
  destruct (run_skips calls c0 w Hs) as (Hs' & Hw & Htok).
  split; [done|].
  set (c := (run calls c0 w).1) in *.
  pose proof (GetClaim_effect claim c w) as He.
  pose proof (GetClaim_skips claim c w Hs' ltac:(by rewrite Htok)) as Hres.
  destruct (lookup_effect_skips _ _ _ _ He Hs') as [Hs'' Hw'].
  split.
  - destruct (GetClaim claim c w) as [[r c'] w']. simpl in *. by subst.
  - intros Hne. destruct Hs' as [Hskip Hp]. destruct Hp as [Hp|Hp].
    + rewrite GetClaim_unpopulated, getProfileClaims_skip by (done || by rewrite Htok).
      simpl. done.
    + rewrite (GetClaim_populated _ ∅) by (done || by rewrite Htok). done.
Qed.

Lemma no_profile_means_not_found_witness :
  (run (lib := goLib) [CallGetClaim "name"; CallGetClaimInto "picture" (PString "")]
     (set_profileClaims
        {| profileURL := None; ctx := context_TODO; requestHeaders := bearer "at";
           tokenClaims := exampleClaims; profileClaims := None |} None) unreachable).2
  = unreachable.
Proof.
  apply (no_profile_means_not_found (lib := goLib) context_TODO exampleToken None (bearer "at")
           _ _ unreachable "name").
  - reflexivity.
  - left. reflexivity.
  - reflexivity.
Defined.

Section CoercionProperties.
Context {lib : GoLib}.

Lemma toString_scalar v :
  scalar v = true → toString v = cast_ToStringE v ∧ (cast_ToStringE v).2 = None.
Proof. by destruct v. Qed.

Lemma toString_VMap m :
  toString (VMap m) =
    match json_Marshal (VMap m) with
    | (_, Some err) => ("", Some err)
    | (text, None) => (text, None)
    end.
Proof. reflexivity. Qed.

Lemma toStringSlice_loop_strings l out :
  toStringSlice_loop (VString <$> l) out = (out ++ l, None).
Proof.
  revert out. induction l as [|s l IH]; intros out; simpl.
  - by rewrite app_nil_r.
  - rewrite IH. by rewrite <- app_assoc.
Qed.


(** C7, as the code has it. A boolean, a number or a string goes through
    [toStringSlice] to the one-element list of its [toString] form, and so
    does an object whenever [toString] succeeds on it; the empty list goes
    to the empty list, and so does [nil]. *)
Theorem scalar_to_singleton :
  (∀ v, scalar v = true →
        ∃ str, toString v = (str, None) ∧ toStringSlice v = ([str], None)) ∧
  (∀ m str, toString (VMap m) = (str, None) → toStringSlice (VMap m) = ([str], None)) ∧
  toStringSlice (VSlice []) = ([], None) ∧
  toStringSlice VNil = ([], None).
Proof.
  split; [|split; [|done]].
  - intros v Hv. destruct v; try done; eexists; split; reflexivity.
  - intros m str Hstr. unfold toStringSlice. simpl. by rewrite Hstr.
Qed.
End CoercionProperties.


Lemma scalar_to_singleton_witness :
  ∃ str, toString (lib := goLib) (VFloat (float64_of_Z false 42)) = (str, None) ∧
         toStringSlice (lib := goLib) (VFloat (float64_of_Z false 42)) = ([str], None).
Proof. apply (scalar_to_singleton (lib := goLib)). reflexivity. Defined.

(** C7 as stated fails on [null]: its [toString] form is the empty string,
    and [toStringSlice] gives the empty list, not the list of that string. *)
Lemma nil_to_empty_slice :
  toString (lib := goLib) VNil = ("", None) ∧
  toStringSlice (lib := goLib) VNil = ([], None) ∧
  toStringSlice (lib := goLib) VNil ≠ ([(toString (lib := goLib) VNil).1], None).
Proof. repeat split. discriminate. Qed.

(** C8. Whenever [GetClientSecret] gets to read the secret file and the
    read fails, it returns the empty secret and the error made from one
    constant message: two runs that fail, on whatever file names, file
    systems and read errors, return the same. *)
Theorem client_secret_read_error_is_generic
    (p1 p2 : ProviderData) (fs1 fs2 : FileSystem) :
  read_fails p1 fs1 → read_fails p2 fs2 →
  (GetClientSecret p1 fs1).1 = ("", Some (errors_New "could not read client secret file")) ∧
  (GetClientSecret p1 fs1).1 = (GetClientSecret p2 fs2).1.
Proof.
  assert (∀ p fs, read_fails p fs →
            (GetClientSecret p fs).1
            = ("", Some (errors_New "could not read client secret file"))) as Hone.
  { intros p fs (Hsecret & Hfile & Herr). unfold GetClientSecret.
    rewrite bool_decide_eq_false_2 by (by intros []).
    rewrite bool_decide_eq_false_2 by done. simpl.
    by destruct (fs (ClientSecretFile p)) as [contents [err|]]. }
  intros H1 H2. by rewrite !Hone.
Qed.

Lemma client_secret_read_error_is_generic_witness :
  (GetClientSecret (exampleProvider None) noSecretFile).1
  = ("", Some (errors_New "could not read client secret file")).
Proof.
  apply (client_secret_read_error_is_generic (exampleProvider None) (exampleProvider None)
           noSecretFile noSecretFile); repeat split; discriminate.
Defined.

Section AssemblyProperties.
Context {lib : GoLib}.

Lemma getClaimExtractor_ok p idToken accessToken claims :
  Claims idToken = (claims, None) →
  getClaimExtractor p idToken accessToken =
    (Some {| profileURL := ProfileURL p; ctx := context_TODO;
             requestHeaders := getAuthorizationHeader p accessToken;
             tokenClaims := claims; profileClaims := None |}, None).
Proof. intros H. unfold getClaimExtractor, NewClaimExtractor. by rewrite H. Qed.

Lemma getClaimExtractor_total p idToken accessToken :
  (∃ extractor, getClaimExtractor p idToken accessToken = (Some extractor, None)) ∨
  (∃ err, getClaimExtractor p idToken accessToken = (None, Some err)).
Proof.
  unfold getClaimExtractor, NewClaimExtractor.
  destruct (Claims idToken) as [claims [err|]]; eauto.
Qed.

Lemma getAuthorizationHeader_no_token p : getAuthorizationHeader p "" = None.
Proof. unfold getAuthorizationHeader. by destruct (getAuthorizationHeaderFunc p). Qed.

(** C4. Where the token's claims hold a [nonce] whose string form is
    [nonce], [checkNonce] returns no error when [nonce] is the nonce the
    session stores and the nonce-mismatch error when it is not, without
    any profile request. *)
Theorem checkNonce_compares_exactly
    (p : ProviderData) (s : SessionState) (idToken : IDToken) (w : World)
    (claims : ClaimSet) (value : any) (nonce : string) :
  Claims idToken = (claims, None) →
  claims !! "nonce" = Some value →
  toString value = (nonce, None) →
  checkNonce p s idToken w =
    (if decide (nonce = Nonce s) then None
     else Some (errors_New "id_token nonce claim does not match the session nonce"), w).
Proof.
  intros Hclaims Hnonce Hstr. unfold checkNonce.
  rewrite (getClaimExtractor_ok _ _ _ claims) by done.
  unfold GetClaimInto. rewrite (GetClaim_token _ value) by done.
  simpl. rewrite Hstr. simpl. unfold CheckNonce.
  destruct (decide (nonce = Nonce s)) as [->|Hne].
  - by rewrite bool_decide_eq_true_2.
  - by rewrite bool_decide_eq_false_2.
Qed.

(** A token without a [nonce] claim is checked as one with the empty nonce. *)
Lemma checkNonce_absent p s idToken w claims :
  Claims idToken = (claims, None) →
  claims !! "nonce" = None →
  checkNonce p s idToken w =
    (if decide ("" = Nonce s) then None
     else Some (errors_New "id_token nonce claim does not match the session nonce"), w).
Proof.
  intros Hclaims Hnonce. unfold checkNonce.
  rewrite (getClaimExtractor_ok _ _ _ claims) by done.
  rewrite getAuthorizationHeader_no_token.
  unfold GetClaimInto. rewrite GetClaim_unpopulated by done.
  rewrite getProfileClaims_skip by (simpl; auto). simpl. rewrite lookup_empty. simpl.
  unfold CheckNonce.
  destruct (decide ("" = Nonce s)) as [<-|Hne].
  - by rewrite bool_decide_eq_true_2.
  - by rewrite bool_decide_eq_false_2.
Qed.
End AssemblyProperties.

Lemma checkNonce_compares_exactly_witness :
  let token := {| Claims := (<["nonce" := VString "abc123"]> exampleClaims, None) |} in
  let session nonce :=
    {| User := "u1"; Email := ""; Groups := []; PreferredUsername := ""; Nonce := nonce |} in
  checkNonce (lib := goLib) (exampleProvider None) (session "abc123") token unreachable
  = (None, unreachable) ∧
  checkNonce (lib := goLib) (exampleProvider None) (session "xyz") token unreachable
  = (Some (errors_New "id_token nonce claim does not match the session nonce"), unreachable).
Proof.
  split.
  - rewrite (checkNonce_compares_exactly (lib := goLib) _ _ _ _
               (<["nonce" := VString "abc123"]> exampleClaims) (VString "abc123") "abc123");
      reflexivity.
  - rewrite (checkNonce_compares_exactly (lib := goLib) _ _ _ _
               (<["nonce" := VString "abc123"]> exampleClaims) (VString "abc123") "abc123");
      reflexivity.
Defined.

Section EmailVerification.
Context {lib : GoLib}.

(** C3, as the code has it. With the email claim being [email] and
    unverified emails not allowed, once the extractor is made and the loop
    over the session's claims has returned the session [ss] without error:
    if the lookup of [email_verified] fails, assembly fails with that
    error; if the claim is found, assembly fails with the error carrying
    [ss]'s email exactly when its value coerces to false, and returns [ss]
    otherwise; if the claim is not found, assembly returns [ss]. *)
Theorem email_verification_enforced
    (p : ProviderData) (idToken : IDToken) (accessToken : string)
    (order : list (string * SessionField)) (w : World)
    (extractor : claimExtractor) (ss : SessionState)
    (extractor' : claimExtractor) (w' : World) :
  EmailClaim p = OIDCEmailClaim → AllowUnverifiedEmail p = false →
  getClaimExtractor p idToken accessToken = (Some extractor, None) →
  rangeClaims order emptySession extractor w = (None, ss, extractor', w') →
  buildSessionFromClaims p (Some idToken) accessToken order w =
    match GetClaim "email_verified" extractor' w' with
    | ((_, _, Some err), _, w'') =>
        ((None, Some (fmt_Errorf "could not get claim %q: %v"
                        [ArgString "email_verified"; ArgError err])), w'')
    | ((value, true, None), _, w'') =>
        if cast_ToBool value then ((Some ss, None), w'')
        else ((None, Some (fmt_Errorf "email in id_token (%s) isn't verified"
                             [ArgString (Email ss)])), w'')
    | ((_, false, None), _, w'') => ((Some ss, None), w'')
    end.
Proof.
  intros Hemail Hallow Hext Hloop. unfold buildSessionFromClaims.
  rewrite Hext, Hloop, Hemail, Hallow. unfold GetClaimInto.
  destruct (GetClaim "email_verified" extractor' w') as [[[[v []] [err|]] c''] w''];
    simpl; try done.
  by destruct (cast_ToBool v).
Qed.
End EmailVerification.

Lemma email_verification_enforced_witness :
  let order := map_to_list (claimDsts (exampleProvider None)) in
  let without := {| Claims := (delete "email_verified" exampleClaims, None) |} in
  buildSessionFromClaims (lib := goLib) (exampleProvider None) (Some exampleToken) "at"
    order unreachable
  = ((None, Some (fmt_Errorf "email in id_token (%s) isn't verified"
                    [ArgString "a@example.com"])), unreachable) ∧
  buildSessionFromClaims (lib := goLib) (exampleProvider None) (Some without) "at"
    order unreachable
  = ((Some {| User := "u1"; Email := "a@example.com"; Groups := ["g1"; "g2"];
              PreferredUsername := ""; Nonce := "" |}, None), unreachable).
Proof.
  split.
  - eapply eq_trans.
    + eapply (email_verification_enforced (lib := goLib)).
      * reflexivity.
      * reflexivity.
      * vm_compute. reflexivity.
      * vm_compute. reflexivity.
    + vm_compute. reflexivity.
  - eapply eq_trans.
    + eapply (email_verification_enforced (lib := goLib)).
      * reflexivity.
      * reflexivity.
      * vm_compute. reflexivity.
      * vm_compute. reflexivity.
    + vm_compute. reflexivity.
Defined.

(** C3 as stated fails where a lookup fails first: the token says
    [email_verified: false], which coerces to false, and enforcement
    applies, but the profile endpoint cannot be reached when
    [preferred_username], which the token lacks, is looked up, and assembly
    fails with that error instead, in whatever order the claims are taken. *)
Lemma unverified_email_masked_by_fetch_error :
  let p := exampleProvider (Some "https://idp.example.com/userinfo") in
  let failure :=
    fmt_Errorf "could not get claim %q: %v"
      [ArgString "preferred_username";
       ArgError (fmt_Errorf "failed to fetch claims from profile URL: %v"
                   [ArgError (fmt_Errorf "error making request to profile URL: %v"
                                [ArgError (errors_New "connection refused")])])] in
  (EmailClaim p = OIDCEmailClaim ∧ AllowUnverifiedEmail p = false) ∧
  (exampleClaims !! "email_verified" = Some (VBool false) ∧
   cast_ToBool (lib := goLib) (VBool false) = false) ∧
  (buildSessionFromClaims (lib := goLib) p (Some exampleToken) "at"
     (map_to_list (claimDsts p)) unreachable).1 = (None, Some failure) ∧
  (∀ order, range_order p order →
     (buildSessionFromClaims (lib := goLib) p (Some exampleToken) "at" order unreachable).1
     = (None, Some failure)).
Proof.
  split; [split; reflexivity|].
  split; [split; vm_compute; reflexivity|].
  split; [vm_compute; reflexivity|].
  intros order Horder. unfold range_order in Horder. symmetry in Horder.
  apply permutations_Permutation in Horder. vm_compute in Horder.
  repeat (apply elem_of_cons in Horder as [->|Horder]; [vm_compute; reflexivity|]).
  by apply elem_of_nil in Horder.
Qed.

(* ================================================================== *)
(** * Further properties of the code *)

(** ** Coercions *)

Section CoercionFurther.
Context {lib : GoLib}.

Lemma toStringSlice_loop_ok l out strs' :
  toStringSlice_loop l out = (strs', None) ↔
  ∃ strs, strs' = out ++ strs ∧ Forall2 (λ v s, toString v = (s, None)) l strs.
Proof.
  revert out. induction l as [|v l IH]; intros out; simpl.
  - split.
    + intros [= <-]. exists []. by rewrite app_nil_r.
    + intros (strs & -> & Hall). apply Forall2_nil_inv_l in Hall as ->.
      by rewrite app_nil_r.
  - destruct (toString v) as [s [e|]] eqn:Hv.
    + split; [done|]. intros (strs & _ & Hall).
      apply Forall2_cons_inv_l in Hall as (s' & strs'' & Hs' & _ & _).
      simpl in Hs'. by rewrite Hv in Hs'.
    + rewrite IH. split.
      * intros (strs & -> & Hall). exists (s :: strs). rewrite <- app_assoc.
        split; [done|]. by constructor.
      * intros (strs & -> & Hall).
        apply Forall2_cons_inv_l in Hall as (s' & strs'' & Hs' & Hall & ->).
        simpl in Hs'. rewrite Hv in Hs'. injection Hs' as <-.
        exists strs''. by rewrite <- app_assoc.
Qed.

Lemma toStringSlice_loop_failed l1 v l2 out s err :
  Forall (λ v, (toString v).2 = None) l1 →
  toString v = (s, Some err) →
  toStringSlice_loop (l1 ++ v :: l2) out =
    ([], Some (fmt_Errorf "could not convert slice entry to string %v: %v"
                 [ArgValue v; ArgError err])).
Proof.
  intros Hl1 Hv. revert out. induction Hl1 as [|v1 l1 Hv1 _ IH]; intros out; simpl.
  - by rewrite Hv.
  - destruct (toString v1) as [s1 [e1|]]; [done|]. apply IH.
Qed.

(** X1. [toStringSlice] on a list succeeds with [strs] exactly when [strs]
    holds, in order and one for one, the [toString] forms of the elements,
    every one of which succeeds: no element is skipped, flattened or
    reordered, and the result is as long as the list. *)
Theorem toStringSlice_elementwise (l : list any) (strs : list string) :
  toStringSlice (VSlice l) = (strs, None) ↔
  Forall2 (λ v s, toString v = (s, None)) l strs.
Proof.
  unfold toStringSlice. rewrite toStringSlice_loop_ok. split.
  - by intros (strs' & -> & Hall).
  - intros Hall. by exists strs.
Qed.

(** X2. [toStringSlice] fails on a list at the first element whose
    [toString] fails: it returns no strings, not those converted up to
    there, and the error names that element and carries its error, whatever
    comes after it. *)
Theorem toStringSlice_first_failure
    (l1 : list any) (v : any) (l2 : list any) (s : string) (err : error) :
  Forall (λ v, (toString v).2 = None) l1 →
  toString v = (s, Some err) →
  toStringSlice (VSlice (l1 ++ v :: l2)) =
    ([], Some (fmt_Errorf "could not convert slice entry to string %v: %v"
                 [ArgValue v; ArgError err])).
Proof. intros. unfold toStringSlice. by eapply toStringSlice_loop_failed. Qed.

(** X3. [toString] fails only on a list or an object that [json.Marshal]
    rejects, with [json.Marshal]'s error and the empty string; on [nil],
    booleans, numbers and strings it always succeeds. *)
Theorem toString_fails_only_in_Marshal (v : any) (err : error) :
  (toString v).2 = Some err ↔
  scalar v = false ∧ v ≠ VNil ∧ (json_Marshal v).2 = Some err ∧ (toString v).1 = "".
Proof.
  destruct v as [|b|f|s|l|m]; simpl.
  - split; [done|]. by intros (_ & Hnil & _).
  - split; [done|]. by intros (? & _).
  - split; [done|]. by intros (? & _).
  - split; [done|]. by intros (? & _).
  - unfold toString. simpl. destruct (json_Marshal (VSlice l)) as [text [e|]]; simpl.
    + split; [by intros [= ->]|by intros (_ & _ & [= ->] & _)].
    + split; [done|by intros (_ & _ & ? & _)].
  - unfold toString. simpl. destruct (json_Marshal (VMap m)) as [text [e|]]; simpl.
    + split; [by intros [= ->]|by intros (_ & _ & [= ->] & _)].
    + split; [done|by intros (_ & _ & ? & _)].
Qed.
End CoercionFurther.

Lemma toStringSlice_first_failure_witness :
  toStringSlice (lib := goLib) (VSlice ([VString "a"; VBool true] ++ notANumber :: [VString "b"]))
  = ([], Some (fmt_Errorf "could not convert slice entry to string %v: %v"
                 [ArgValue notANumber; ArgError (errors_New "json: unsupported value")])).
Proof.
  apply (toStringSlice_first_failure (lib := goLib) _ _ _ "").
  - repeat constructor.
  - reflexivity.
Defined.

(** ** The extractor *)

(** X4. The three results of [GetClaim] come in three shapes only: a value
    found, without error; [nil] not found, without error; [nil] not found,
    with an error. A value other than [nil] means found, and an error means
    not found. *)
Theorem GetClaim_result_shape (claim : string) (c : claimExtractor) (w : World) :
  (∃ value, (GetClaim claim c w).1.1 = (value, true, None)) ∨
  (GetClaim claim c w).1.1 = (VNil, false, None) ∨
  (∃ err, (GetClaim claim c w).1.1 = (VNil, false, Some err)).
Proof.
  destruct (decide (claim = "")) as [->|Hne]; [by right; left|].
  destruct (tokenClaims c !! claim) as [v|] eqn:Htok.
  { rewrite (GetClaim_token _ v) by done. eauto. }
  destruct (profileClaims c) as [m|] eqn:Hpc.
  { rewrite (GetClaim_populated _ m) by done. destruct (m !! claim); eauto. }
  rewrite GetClaim_unpopulated by done.
  destruct (getProfileClaims c w) as [[pc [err|]] w']; simpl; eauto.
  destruct (pc ≫= _); eauto.
Qed.

(** X5. [GetClaim] returns an error only when it issued the profile request
    and the request failed: the name is not empty and not among the token
    claims, the profile claims are unpopulated, there is a profile URL and
    there are headers, and the error wraps, twice, the one the request
    returned. *)
Theorem GetClaim_error_is_failed_request
    (claim : string) (c : claimExtractor) (w : World) (err : error) :
  (GetClaim claim c w).1.1.2 = Some err →
  claim ≠ "" ∧ tokenClaims c !! claim = None ∧ profileClaims c = None ∧
  ∃ url headers claims e,
    profileURL c = Some url ∧ requestHeaders c = Some headers ∧
    respond w (length (issued w)) (profileRequest url headers c) = (claims, Some e) ∧
    err = fmt_Errorf "failed to fetch claims from profile URL: %v"
            [ArgError (fmt_Errorf "error making request to profile URL: %v" [ArgError e])] ∧
    (GetClaim claim c w).2 = after_request (profileRequest url headers c) w.
Proof.
  intros Herr.
  destruct (decide (claim = "")) as [->|Hne]; [done|].
  destruct (tokenClaims c !! claim) as [v|] eqn:Htok.
  { by rewrite (GetClaim_token _ v) in Herr. }
  destruct (profileClaims c) as [m|] eqn:Hpc.
  { rewrite (GetClaim_populated _ m) in Herr by done. by destruct (m !! claim). }
  rewrite GetClaim_unpopulated in * by done.
  destruct (profileURL c) as [url|] eqn:Hu; [destruct (requestHeaders c) as [h|] eqn:Hh|];
    [|by rewrite getProfileClaims_skip in Herr by auto..].
  rewrite (getProfileClaims_fetch url h) in * by done.
  destruct (respond w _ _) as [claims [e|]] eqn:Hr; simpl in *.
  - injection Herr as <-. repeat split; try done. by exists url, h, claims, e.
  - by destruct (claims ≫= _).
Qed.

Lemma GetClaim_error_is_failed_request_witness :
  "name" ≠ "" ∧ tokenClaims exampleExtractor !! "name" = None ∧
  profileClaims exampleExtractor = None.
Proof.
  destruct (GetClaim_error_is_failed_request "name" exampleExtractor unreachable _ eq_refl)
    as (H1 & H2 & H3 & _).
  auto.
Defined.

(** X6. A lookup of a name the token claims lack, on an unpopulated
    extractor whose request returns the mapping [m], answers from [m] and
    stores [m]; from then on every lookup is answered from the token claims
    and, failing that, from [m], and changes neither the extractor nor the
    network. *)
Theorem fetched_profile_is_served
    (claim url : string) (headers : Header) (m : ClaimSet) (c : claimExtractor) (w : World) :
  claim ≠ "" → tokenClaims c !! claim = None → profileClaims c = None →
  profileURL c = Some url → requestHeaders c = Some headers →
  respond w (length (issued w)) (profileRequest url headers c) = (Some m, None) →
  let c1 := set_profileClaims c (Some m) in
  let w1 := after_request (profileRequest url headers c) w in
  GetClaim claim c w
  = (from_option (λ v, (v, true, None)) (VNil, false, None) (m !! claim), c1, w1) ∧
  ∀ claim', claim' ≠ "" →
    GetClaim claim' c1 w1
    = (from_option (λ v, (v, true, None)) (VNil, false, None)
         (tokenClaims c !! claim' ∪ m !! claim'), c1, w1).
Proof.
  intros Hne Hmiss Hnil Hu Hh Hr c1 w1. split.
  - rewrite GetClaim_unpopulated, (getProfileClaims_fetch url headers), Hr by done.
    simpl. by destruct (m !! claim).
  - intros claim' Hne'. destruct (tokenClaims c !! claim') as [v|] eqn:Htok.
    + rewrite (GetClaim_token claim' v c1 w1 Hne' Htok). by destruct (m !! claim').
    + rewrite (GetClaim_populated claim' m c1 w1 Hne' Htok eq_refl).
      by destruct (m !! claim').
Qed.

Lemma fetched_profile_is_served_witness :
  GetClaim "name" exampleExtractor (serving exampleProfile)
  = ((VString "Ada", true, None), set_profileClaims exampleExtractor (Some exampleProfile),
     after_request (profileRequest "https://idp.example.com/userinfo"
                      {[ "Authorization" := ["Bearer at"] ]} exampleExtractor)
       (serving exampleProfile)) ∧
  (GetClaim "sub" (set_profileClaims exampleExtractor (Some exampleProfile))
     (after_request (profileRequest "https://idp.example.com/userinfo"
                       {[ "Authorization" := ["Bearer at"] ]} exampleExtractor)
        (serving exampleProfile))).1.1
  = (VString "u1", true, None).
Proof.
  destruct (fetched_profile_is_served "name" "https://idp.example.com/userinfo"
              {[ "Authorization" := ["Bearer at"] ]} exampleProfile exampleExtractor
              (serving exampleProfile))
    as [Hfirst Hlater]; try reflexivity; try discriminate.
  split.
  - exact Hfirst.
  - rewrite Hlater by discriminate. reflexivity.
Defined.

Lemma lookup_effect_requests c w c' w' :
  lookup_effect c w c' w' →
  ∃ new, issued w' = issued w ++ new ∧
         Forall (λ x, profileURL c = Some (reqURL x.1) ∧
                      requestHeaders c = Some (reqHeaders x.1) ∧
                      reqCtx x.1 = ctx c) new.
Proof.
  intros [|Hnil Hskip|url headers claims err Hnil Hu Hh Hr|url headers claims Hnil Hu Hh Hr];
    simpl.
  - exists []. by rewrite app_nil_r.
  - exists []. by rewrite app_nil_r.
  - eexists [_]. split; [done|]. by repeat constructor.
  - eexists [_]. split; [done|]. by repeat constructor.
Qed.

Section SequencesFurther.
Context {lib : GoLib}.

Lemma run_frame calls c w :
  profileURL (run calls c w).1 = profileURL c ∧ ctx (run calls c w).1 = ctx c ∧
  requestHeaders (run calls c w).1 = requestHeaders c ∧
  tokenClaims (run calls c w).1 = tokenClaims c.
Proof.
  revert c w. induction calls as [|k rest IH]; intros c w; [done|]. simpl.
  pose proof (step_effect k c w) as He.
  destruct (step k c w) as [c1 w1]. simpl in He.
  destruct (lookup_effect_frame _ _ _ _ He) as (<- & <- & <- & <- & _).
  apply IH.
Qed.

(** X7. Every profile request issued over a sequence of calls on an
    extractor goes to the extractor's profile URL, with the extractor's
    request headers and in the extractor's context: no call sends anything
    else, and none is sent by an extractor without a URL or without
    headers. *)
Theorem requests_carry_the_extractors_settings
    (calls : list call) (c : claimExtractor) (w : World) :
  ∃ new, issued (run calls c w).2 = issued w ++ new ∧
         Forall (λ x, profileURL c = Some (reqURL x.1) ∧
                      requestHeaders c = Some (reqHeaders x.1) ∧
                      reqCtx x.1 = ctx c) new.
Proof.
  revert c w. induction calls as [|k rest IH]; intros c w; simpl.
  { exists []. by rewrite app_nil_r. }
  pose proof (step_effect k c w) as He.
  destruct (step k c w) as [c1 w1]. simpl in He.
  destruct (lookup_effect_requests _ _ _ _ He) as (new1 & Hnew1 & Hall1).
  destruct (lookup_effect_frame _ _ _ _ He) as (Hu & Hctx & Hh & _).
  destruct (IH c1 w1) as (new2 & Hnew2 & Hall2).
  exists (new1 ++ new2). rewrite Hnew2, Hnew1, app_assoc. split; [done|].
  apply Forall_app. split; [done|]. by rewrite Hu, Hctx, Hh in Hall2.
Qed.

(** X8. Whatever calls were made on an extractor before, and whatever the
    profile endpoint answered, a non-empty name among the token claims is
    looked up to the token value, found and without error, and the lookup
    changes nothing. *)
Theorem token_claims_outlast_calls
    (calls : list call) (c : claimExtractor) (w : World) (claim : string) (value : any) :
  claim ≠ "" → tokenClaims c !! claim = Some value →
  GetClaim claim (run calls c w).1 (run calls c w).2
  = ((value, true, None), (run calls c w).1, (run calls c w).2).
Proof.
  intros Hne Htok. apply GetClaim_token; [done|].
  by destruct (run_frame calls c w) as (_ & _ & _ & ->).
Qed.
End SequencesFurther.

Lemma token_claims_outlast_calls_witness :
  let calls := [CallGetClaim "name"; CallGetClaimInto "sub" (PString "")] in
  GetClaim "sub" (run (lib := goLib) calls exampleExtractor (serving exampleProfile)).1
    (run (lib := goLib) calls exampleExtractor (serving exampleProfile)).2
  = ((VString "u1", true, None),
     (run (lib := goLib) calls exampleExtractor (serving exampleProfile)).1,
     (run (lib := goLib) calls exampleExtractor (serving exampleProfile)).2).
Proof.
  apply (token_claims_outlast_calls (lib := goLib)); [discriminate|reflexivity].
Defined.

(** ** Session assembly and the nonce check *)

Section AssemblyFurther.
Context {lib : GoLib}.

Lemma GetClaimInto_skips claim dst c w :
  skips_profile c →
  skips_profile (GetClaimInto claim dst c w).1.2 ∧ (GetClaimInto claim dst c w).2 = w.
Proof. intros Hs. eapply lookup_effect_skips; [apply GetClaimInto_effect|done]. Qed.

Lemma rangeClaims_skips entries ss c w :
  skips_profile c →
  skips_profile (rangeClaims entries ss c w).1.2 ∧ (rangeClaims entries ss c w).2 = w.
Proof.
  revert ss c. induction entries as [|[claim f] rest IH]; intros ss c Hs; [done|]. simpl.
  destruct (GetClaimInto_skips claim (addr ss f) c w Hs) as [Hs' Hw].
  destruct (GetClaimInto claim (addr ss f) c w) as [[[[found [err|]] dst] c'] w'];
    simpl in *; subst; [done|]. by apply IH.
Qed.

Lemma getClaimExtractor_skips p idToken accessToken extractor :
  ProfileURL p = None ∨ getAuthorizationHeader p accessToken = None →
  getClaimExtractor p idToken accessToken = (Some extractor, None) →
  skips_profile extractor.
Proof.
  intros Hno. unfold getClaimExtractor, NewClaimExtractor.
  destruct (Claims idToken) as [claims [err|]]; [done|]. intros [= <-].
  split; simpl; auto.
Qed.

(** X9. [checkNonce] makes no profile request, whatever the provider, the
    session and the token are, a token without a [nonce] claim included: it
    asks for the extractor with the empty access token, which gives no
    headers. *)
Theorem checkNonce_makes_no_request
    (p : ProviderData) (s : SessionState) (idToken : IDToken) (w : World) :
  (checkNonce p s idToken w).2 = w.
Proof.
  unfold checkNonce.
  destruct (getClaimExtractor p idToken "") as [[extractor|] [err|]] eqn:Hext; try done.
  assert (skips_profile extractor) as Hs.
  { eapply getClaimExtractor_skips; [|done]. right. apply getAuthorizationHeader_no_token. }
  destruct (GetClaimInto_skips "nonce" (PString "") extractor w Hs) as [_ Hw].
  destruct (GetClaimInto "nonce" (PString "") extractor w) as [[[[found [err|]] dst] c'] w'];
    simpl in *; subst; [done|]. by destruct (negb _).
Qed.

(** X10. Without a profile URL, or without headers for the access token (no
    header function, an empty access token, or a function that gives none),
    [buildSessionFromClaims] makes no profile request, for every token and
    in every order of the claims. *)
Theorem buildSession_without_headers_makes_no_request
    (p : ProviderData) (idToken : option IDToken) (accessToken : string)
    (order : list (string * SessionField)) (w : World) :
  ProfileURL p = None ∨ getAuthorizationHeader p accessToken = None →
  (buildSessionFromClaims p idToken accessToken order w).2 = w.
Proof.
  intros Hno. unfold buildSessionFromClaims. destruct idToken as [idToken|]; [|done].
  destruct (getClaimExtractor p idToken accessToken) as [[extractor|] [err|]] eqn:Hext;
    try done.
  pose proof (getClaimExtractor_skips _ _ _ _ Hno Hext) as Hs.
  destruct (rangeClaims_skips order emptySession extractor w Hs) as [Hs' Hw].
  destruct (rangeClaims order emptySession extractor w) as [[[[err|] ss] c'] w'];
    simpl in *; subst; [done|].
  destruct (GetClaimInto_skips "email_verified" (PBool false) c' w Hs') as [_ Hw].
  destruct (GetClaimInto "email_verified" (PBool false) c' w)
    as [[[[found [err|]] dst] c''] w'']; simpl in *; subst; [done|].
  by destruct (_ && _).
Qed.

(** X11. [buildSessionFromClaims] returns either a session and no error, or
    an error and no session: never an error beside a session that is
    populated in part. *)
Theorem buildSession_session_or_error
    (p : ProviderData) (idToken : option IDToken) (accessToken : string)
    (order : list (string * SessionField)) (w : World) :
  (∃ ss, (buildSessionFromClaims p idToken accessToken order w).1 = (Some ss, None)) ∨
  (∃ err, (buildSessionFromClaims p idToken accessToken order w).1 = (None, Some err)).
Proof.
  unfold buildSessionFromClaims. destruct idToken as [idToken|]; [|eauto].
  destruct (getClaimExtractor_total p idToken accessToken) as [[extractor ->]|[err ->]];
    [|eauto].
  destruct (rangeClaims order emptySession extractor w) as [[[[err|] ss] c'] w']; [eauto|].
  destruct (GetClaimInto "email_verified" (PBool false) c' w')
    as [[[[found [err|]] dst] c''] w'']; [eauto|].
  destruct (_ && _); eauto.
Qed.

(** X12. Where enforcement does not apply (the email claim is not [email],
    or unverified emails are allowed), [buildSessionFromClaims] still looks
    [email_verified] up after the loop: an error of that lookup fails the
    assembly, and otherwise the session is returned whatever the claim
    says. *)
Theorem email_verification_not_enforced
    (p : ProviderData) (idToken : IDToken) (accessToken : string)
    (order : list (string * SessionField)) (w : World)
    (extractor : claimExtractor) (ss : SessionState)
    (extractor' : claimExtractor) (w' : World) :
  EmailClaim p ≠ OIDCEmailClaim ∨ AllowUnverifiedEmail p = true →
  getClaimExtractor p idToken accessToken = (Some extractor, None) →
  rangeClaims order emptySession extractor w = (None, ss, extractor', w') →
  buildSessionFromClaims p (Some idToken) accessToken order w =
    match GetClaim "email_verified" extractor' w' with
    | ((_, _, Some err), _, w'') =>
        ((None, Some (fmt_Errorf "could not get claim %q: %v"
                        [ArgString "email_verified"; ArgError err])), w'')
    | (_, _, w'') => ((Some ss, None), w'')
    end.
Proof.
  intros Hoff Hext Hloop. unfold buildSessionFromClaims. rewrite Hext, Hloop.
  assert (bool_decide (EmailClaim p = OIDCEmailClaim) && negb (AllowUnverifiedEmail p) = false)
    as ->.
  { destruct Hoff as [Hne| ->].
    - by rewrite bool_decide_eq_false_2.
    - apply andb_false_r. }
  unfold GetClaimInto.
  by destruct (GetClaim "email_verified" extractor' w') as [[[[v []] [err|]] c''] w''].
Qed.
End AssemblyFurther.

Lemma buildSession_without_headers_makes_no_request_witness :
  (buildSessionFromClaims (lib := goLib) (exampleProvider (Some "https://idp.example.com/userinfo"))
     (Some exampleToken) "" (map_to_list (claimDsts (exampleProvider None))) unreachable).2
  = unreachable.
Proof.
  apply (buildSession_without_headers_makes_no_request (lib := goLib)).
  right. reflexivity.
Defined.

Lemma email_verification_not_enforced_witness :
  buildSessionFromClaims (lib := goLib) lenientProvider (Some exampleToken) "at"
    (map_to_list (claimDsts lenientProvider)) unreachable
  = ((Some {| User := "u1"; Email := "a@example.com"; Groups := ["g1"; "g2"];
              PreferredUsername := ""; Nonce := "" |}, None), unreachable).
Proof.
  eapply eq_trans.
  - eapply (email_verification_not_enforced (lib := goLib)).
    + right. reflexivity.
    + vm_compute. reflexivity.
    + vm_compute. reflexivity.
  - vm_compute. reflexivity.
Defined.

Lemma store_keeps_User ss f dst : f ≠ FUser → User (store ss f dst) = User ss.
Proof. by destruct f, dst. Qed.

Lemma claimDsts_lookup p claim f :
  claimDsts p !! claim = Some f ↔
  (claim = "preferred_username" ∧ f = FPreferredUsername) ∨
  (claim ≠ "preferred_username" ∧
   ((claim = GroupsClaim p ∧ f = FGroups) ∨
    (claim ≠ GroupsClaim p ∧
     ((claim = EmailClaim p ∧ f = FEmail) ∨
      (claim ≠ EmailClaim p ∧ claim = "sub" ∧ f = FUser))))).
Proof.
  unfold claimDsts. rewrite !lookup_insert_Some, lookup_empty. naive_solver.
Qed.

Section SubjectFurther.
Context {lib : GoLib}.

Lemma rangeClaims_keeps_User entries ss c w :
  (∀ claim, (claim, FUser) ∉ entries) →
  User (rangeClaims entries ss c w).1.1.2 = User ss.
Proof.
  revert ss c w. induction entries as [|[claim f] rest IH]; intros ss c w Hno; [done|].
  simpl. destruct (GetClaimInto claim (addr ss f) c w) as [[[[found [err|]] dst] c'] w'];
    [done|].
  rewrite IH.
  - apply store_keeps_User. intros ->. apply (Hno claim). left.
  - intros claim' Hin. apply (Hno claim'). by right.
Qed.

(** X13. Where the email claim or the groups claim is configured as [sub],
    the map literal that [buildSessionFromClaims] ranges over has only one
    entry under [sub], the later one, so the session's [User] is never
    written: every session assembled comes with the empty [User], whatever
    the token's [sub] is. *)
Theorem sub_as_email_claim_leaves_User_empty
    (p : ProviderData) (idToken : option IDToken) (accessToken : string)
    (order : list (string * SessionField)) (w : World) (ss : SessionState) :
  EmailClaim p = "sub" ∨ GroupsClaim p = "sub" →
  range_order p order →
  (buildSessionFromClaims p idToken accessToken order w).1 = (Some ss, None) →
  User ss = "".
Proof.
  intros Hsub Horder. unfold buildSessionFromClaims.
  destruct idToken as [idToken|]; [|by intros [= <-]].
  destruct (getClaimExtractor p idToken accessToken) as [[extractor|] [err|]]; try done.
  pose proof (rangeClaims_keeps_User order emptySession extractor w) as Hkeep.
  destruct (rangeClaims order emptySession extractor w) as [[[[err|] ss'] c'] w']; [done|].
  destruct (GetClaimInto "email_verified" (PBool false) c' w')
    as [[[[found [err|]] dst] c''] w'']; [done|].
  destruct (_ && _); [done|]. intros [= <-]. simpl in Hkeep. apply Hkeep.
  intros claim Hin. rewrite Horder in Hin.
  apply elem_of_map_to_list, claimDsts_lookup in Hin. naive_solver.
Qed.
End SubjectFurther.

Lemma sub_as_email_claim_leaves_User_empty_witness :
  buildSessionFromClaims (lib := goLib) subAsEmailProvider (Some exampleToken) "at"
    (map_to_list (claimDsts subAsEmailProvider)) unreachable
  = ((Some {| User := ""; Email := "u1"; Groups := ["g1"; "g2"];
              PreferredUsername := ""; Nonce := "" |}, None), unreachable) ∧
  User {| User := ""; Email := "u1"; Groups := ["g1"; "g2"];
          PreferredUsername := ""; Nonce := "" |} = "".
Proof.
  split; [vm_compute; reflexivity|].
  eapply (sub_as_email_claim_leaves_User_empty (lib := goLib) subAsEmailProvider
            (Some exampleToken) "at" _ unreachable).
  - left. reflexivity.
  - unfold range_order. reflexivity.
  - vm_compute. reflexivity.
Defined.

(** ** The order of the claims *)

Lemma addr_store_ne ss f f' dst : f ≠ f' → addr (store ss f' dst) f = addr ss f.
Proof. by destruct f, f', dst. Qed.

Lemma store_comm ss f f' dst dst' :
  f ≠ f' → store (store ss f dst) f' dst' = store (store ss f' dst') f dst.
Proof. by destruct f, f', dst, dst'. Qed.

Lemma NoDup_snd_of_inj {A B} (l : list (A * B)) :
  NoDup l.*1 → (∀ a1 a2 b, (a1, b) ∈ l → (a2, b) ∈ l → a1 = a2) → NoDup l.*2.
Proof.
  induction l as [|[a b] l IH]; simpl; [constructor|].
  intros [Ha Hl]%NoDup_cons Hinj. constructor.
  - intros ([a' b'] & Hb & Hin)%list_elem_of_fmap. simpl in Hb. subst b'.
    assert (a = a') as <-. { apply (Hinj a a' b); [left|by right]. }
    apply Ha, list_elem_of_fmap. by exists (a, b).
  - apply IH; [done|]. intros a1 a2 b' H1 H2. apply (Hinj a1 a2 b'); by right.
Qed.

Lemma claimDsts_fields_NoDup p : NoDup (map_to_list (claimDsts p)).*2.
Proof.
  apply NoDup_snd_of_inj; [apply NoDup_fst_map_to_list|].
  intros k1 k2 f H1%elem_of_map_to_list%claimDsts_lookup
    H2%elem_of_map_to_list%claimDsts_lookup.
  naive_solver.
Qed.

Section OrderOfClaims.
Context {lib : GoLib}.

Lemma GetClaimInto_results claim dst c1 w1 c2 w2 :
  (GetClaim claim c1 w1).1.1 = (GetClaim claim c2 w2).1.1 →
  (GetClaimInto claim dst c1 w1).1.1 = (GetClaimInto claim dst c2 w2).1.1.
Proof.
  unfold GetClaimInto.
  destruct (GetClaim claim c1 w1) as [[[[v1 b1] e1] c1'] w1'].
  destruct (GetClaim claim c2 w2) as [[[[v2 b2] e2] c2'] w2']. simpl.
  intros [= -> -> ->]. destruct b2, e2; simpl; try done.
  by destruct (coerceClaim v2 dst) as [d [e|]].
Qed.

Lemma rangeClaims_cons claim f rest ss c w :
  (rangeClaims ((claim, f) :: rest) ss c w).1.1 =
    match (GetClaimInto claim (addr ss f) c w).1.1 with
    | ((_, Some err), _) => (Some err, ss)
    | ((_, None), dst) =>
        (rangeClaims rest (store ss f dst)
           (GetClaimInto claim (addr ss f) c w).1.2 (GetClaimInto claim (addr ss f) c w).2).1.1
    end.
Proof.
  simpl. by destruct (GetClaimInto claim (addr ss f) c w) as [[[[found [err|]] dst] c'] w'].
Qed.

Lemma buildSession_result p idToken accessToken order w extractor :
  getClaimExtractor p idToken accessToken = (Some extractor, None) →
  (buildSessionFromClaims p (Some idToken) accessToken order w).1 =
    match (rangeClaims order emptySession extractor w).1.1 with
    | (Some err, _) => (None, Some err)
    | (None, ss) =>
        match (GetClaimInto "email_verified" (PBool false)
                 (rangeClaims order emptySession extractor w).1.2
                 (rangeClaims order emptySession extractor w).2).1.1 with
        | ((_, Some err), _) => (None, Some err)
        | ((found, None), verified) =>
            if bool_decide (EmailClaim p = OIDCEmailClaim) && negb (AllowUnverifiedEmail p)
               && found && negb (load_bool verified)
            then (None, Some (fmt_Errorf "email in id_token (%s) isn't verified"
                                [ArgString (Email ss)]))
            else (Some ss, None)
        end
    end.
Proof.
  intros Hext. unfold buildSessionFromClaims. rewrite Hext.
  destruct (rangeClaims order emptySession extractor w) as [[[[err|] ss] c'] w']; [done|].
  simpl.
  destruct (GetClaimInto "email_verified" (PBool false) c' w')
    as [[[[found [err|]] dst] c''] w'']; [done|]. simpl.
  by destruct (_ && _).
Qed.

(** A set of extractor states that lookups do not leave and among which the
    results of a lookup do not differ. *)
Section Stable.
Variable stable : claimExtractor → World → Prop.
Hypothesis stable_step : ∀ claim dst c w,
  stable c w → stable (GetClaimInto claim dst c w).1.2 (GetClaimInto claim dst c w).2.
Hypothesis stable_results : ∀ claim c1 w1 c2 w2,
  stable c1 w1 → stable c2 w2 → (GetClaim claim c1 w1).1.1 = (GetClaim claim c2 w2).1.1.

Lemma rangeClaims_stable entries ss c w :
  stable c w → stable (rangeClaims entries ss c w).1.2 (rangeClaims entries ss c w).2.
Proof.
  revert ss c w. induction entries as [|[claim f] rest IH]; intros ss c w Hst; [done|].
  simpl. pose proof (stable_step claim (addr ss f) c w Hst) as Hst'.
  destruct (GetClaimInto claim (addr ss f) c w) as [[[[found [err|]] dst] c'] w'];
    simpl in *; [done|]. by apply IH.
Qed.

Lemma rangeClaims_results entries ss c1 w1 c2 w2 :
  stable c1 w1 → stable c2 w2 →
  (rangeClaims entries ss c1 w1).1.1 = (rangeClaims entries ss c2 w2).1.1.
Proof.
  revert ss c1 w1 c2 w2.
  induction entries as [|[claim f] rest IH]; intros ss c1 w1 c2 w2 H1 H2; [done|].
  rewrite !rangeClaims_cons.
  rewrite (GetClaimInto_results claim (addr ss f) c1 w1 c2 w2) by by apply stable_results.
  destruct ((GetClaimInto claim (addr ss f) c2 w2).1.1) as [[found [err|]] dst]; [done|].
  apply IH; by apply stable_step.
Qed.

Lemma rangeClaims_permutation entries entries' :
  entries ≡ₚ entries' → NoDup entries.*2 →
  ∀ ss c w ss', stable c w →
    (rangeClaims entries ss c w).1.1 = (None, ss') →
    (rangeClaims entries' ss c w).1.1 = (None, ss').
Proof.
  induction 1 as [|[claim f] l l' Hperm IH|[cx fx] [cy fy] l|l1 l2 l3 H12 IH12 H23 IH23];
    intros Hnd ss c w ss' Hst.
  - done.
  - rewrite !rangeClaims_cons.
    destruct ((GetClaimInto claim (addr ss f) c w).1.1) as [[found [err|]] dst]; [done|].
    apply IH; [by apply NoDup_cons in Hnd as [_ ?]|by apply stable_step].
  - assert (fx ≠ fy) as Hne.
    { apply NoDup_cons in Hnd as [Hnotin _]. intros ->. apply Hnotin. left. }
    rewrite !rangeClaims_cons.
    pose proof (stable_step cy (addr ss fy) c w Hst) as Hsty.
    pose proof (stable_step cx (addr ss fx) c w Hst) as Hstx.
    destruct ((GetClaimInto cy (addr ss fy) c w).1.1) as [[foundy [erry|]] dy] eqn:Hy;
      [done|].
    rewrite rangeClaims_cons, (addr_store_ne ss fx fy dy Hne).
    rewrite (GetClaimInto_results cx (addr ss fx) _ _ c w) by by apply stable_results.
    destruct ((GetClaimInto cx (addr ss fx) c w).1.1) as [[foundx [errx|]] dx] eqn:Hx;
      [done|].
    rewrite rangeClaims_cons, (addr_store_ne ss fy fx dx) by done.
    rewrite (GetClaimInto_results cy (addr ss fy) _ _ c w), Hy by by apply stable_results.
    rewrite (store_comm ss fx fy dx dy Hne).
    intros <-. apply rangeClaims_results; by apply stable_step.
  - intros H1. apply IH23; [by rewrite <- H12|done|]. by apply IH12.
Qed.

Lemma buildSession_permutation p idToken accessToken order order' w extractor ss :
  getClaimExtractor p idToken accessToken = (Some extractor, None) →
  stable extractor w →
  order ≡ₚ order' → NoDup order.*2 →
  (buildSessionFromClaims p (Some idToken) accessToken order w).1 = (Some ss, None) →
  (buildSessionFromClaims p (Some idToken) accessToken order' w).1 = (Some ss, None).
Proof.
  intros Hext Hst Hperm Hnd. rewrite !(buildSession_result _ _ _ _ _ extractor) by done.
  pose proof (rangeClaims_permutation order order' Hperm Hnd emptySession extractor w) as Hp.
  destruct ((rangeClaims order emptySession extractor w).1.1) as [[err|] ss1] eqn:H1; [done|].
  rewrite (Hp ss1 Hst eq_refl).
  rewrite (GetClaimInto_results "email_verified" (PBool false)
             (rangeClaims order emptySession extractor w).1.2
             (rangeClaims order emptySession extractor w).2
             (rangeClaims order' emptySession extractor w).1.2
             (rangeClaims order' emptySession extractor w).2); [done|].
  apply stable_results; by apply rangeClaims_stable.
Qed.
End Stable.
End OrderOfClaims.

Lemma GetClaim_served claim url headers m c w :
  profileClaims c = None → profileURL c = Some url → requestHeaders c = Some headers →
  respond w (length (issued w)) (profileRequest url headers c) = (Some m, None) →
  (GetClaim claim c w).1.1
  = (GetClaim claim (set_profileClaims c (Some m))
       (after_request (profileRequest url headers c) w)).1.1.
Proof.
  intros Hnil Hu Hh Hr.
  destruct (decide (claim = "")) as [->|Hne]; [done|].
  destruct (tokenClaims c !! claim) as [v|] eqn:Htok.
  { rewrite (GetClaim_token _ v) by done.
    by rewrite (GetClaim_token claim v (set_profileClaims c (Some m)) _ Hne Htok). }
  rewrite GetClaim_unpopulated, (getProfileClaims_fetch url headers), Hr by done.
  rewrite (GetClaim_populated claim m (set_profileClaims c (Some m)) _ Hne Htok eq_refl).
  simpl. by destruct (m !! claim).
Qed.

Section OrderOfClaimsSettled.
Context {lib : GoLib}.

Lemma skipping_is_stable (T : ClaimSet) :
  (∀ claim dst c w,
     skips_profile c ∧ tokenClaims c = T →
     skips_profile (GetClaimInto claim dst c w).1.2 ∧
     tokenClaims (GetClaimInto claim dst c w).1.2 = T) ∧
  (∀ claim c1 (w1 : World) c2 (w2 : World),
     skips_profile c1 ∧ tokenClaims c1 = T → skips_profile c2 ∧ tokenClaims c2 = T →
     (GetClaim claim c1 w1).1.1 = (GetClaim claim c2 w2).1.1).
Proof.
  split.
  - intros claim dst c w [Hs <-]. split; [by apply GetClaimInto_skips|].
    pose proof (lookup_effect_frame _ _ _ _ (GetClaimInto_effect claim dst c w)) as Hf.
    by destruct Hf as (_ & _ & _ & -> & _).
  - intros claim c1 w1 c2 w2 [Hs1 H1] [Hs2 H2].
    destruct (decide (claim = "")) as [->|Hne]; [done|].
    destruct (T !! claim) as [v|] eqn:Htok.
    + rewrite !(GetClaim_token _ v) by congruence. done.
    + rewrite !GetClaim_skips by congruence. done.
Qed.

Lemma served_is_stable url headers m c0 w0 :
  profileClaims c0 = None → profileURL c0 = Some url → requestHeaders c0 = Some headers →
  respond w0 (length (issued w0)) (profileRequest url headers c0) = (Some m, None) →
  let c1 := set_profileClaims c0 (Some m) in
  let w1 := after_request (profileRequest url headers c0) w0 in
  let stable c w := (c = c0 ∧ w = w0) ∨ (c = c1 ∧ w = w1) in
  (∀ claim dst c w,
     stable c w → stable (GetClaimInto claim dst c w).1.2 (GetClaimInto claim dst c w).2) ∧
  (∀ claim c w c' w',
     stable c w → stable c' w' → (GetClaim claim c w).1.1 = (GetClaim claim c' w').1.1).
Proof.
  intros Hnil Hu Hh Hr c1 w1 stable. split.
  - intros claim dst c w Hst. pose proof (GetClaimInto_effect claim dst c w) as He.
    destruct Hst as [[-> ->]|[-> ->]].
    + destruct He as [|_ [?|?]|url' headers' claims err _ Hu' Hh' Hr'
                      |url' headers' claims _ Hu' Hh' Hr']; try congruence.
      * by left.
      * rewrite Hu in Hu'. rewrite Hh in Hh'. simplify_eq. rewrite Hr in Hr'.
        simplify_eq. by right.
    + destruct (lookup_effect_populated _ _ _ _ He) as [-> ->]; [by eexists|by right].
  - assert (∀ claim, (GetClaim claim c1 w1).1.1 = (GetClaim claim c0 w0).1.1) as H10.
    { intros claim. symmetry. by apply GetClaim_served. }
    intros claim c w c' w' [[-> ->]|[-> ->]] [[-> ->]|[-> ->]]; by rewrite ?H10.
Qed.

(** X14. Go ranges over the map literal of [buildSessionFromClaims] in an
    order of its choosing, and the session does not depend on it: where no
    profile request can be made (no profile URL, or no headers), or where
    the profile endpoint answers the first request with a mapping, a session
    that is assembled in one order of the claims is the session assembled in
    every other order. *)
Theorem session_independent_of_claim_order
    (p : ProviderData) (idToken : option IDToken) (accessToken : string)
    (order order' : list (string * SessionField)) (w : World) (ss : SessionState) :
  (ProfileURL p = None ∨ getAuthorizationHeader p accessToken = None) ∨
  (∃ url headers m,
     ProfileURL p = Some url ∧ getAuthorizationHeader p accessToken = Some headers ∧
     respond w (length (issued w))
       {| reqURL := url; reqCtx := context_TODO; reqHeaders := headers |} = (Some m, None)) →
  range_order p order → range_order p order' →
  (buildSessionFromClaims p idToken accessToken order w).1 = (Some ss, None) →
  (buildSessionFromClaims p idToken accessToken order' w).1 = (Some ss, None).
Proof.
  intros Hnet Ho Ho'. destruct idToken as [idToken|]; [|done].
  assert (order ≡ₚ order') as Hperm by (unfold range_order in *; by rewrite Ho, Ho').
  assert (NoDup order.*2) as Hnd.
  { unfold range_order in Ho. rewrite Ho. apply claimDsts_fields_NoDup. }
  destruct (getClaimExtractor_total p idToken accessToken) as [[extractor Hext]|[err Hext]];
    [|by unfold buildSessionFromClaims; rewrite Hext].
  destruct Hnet as [Hno|(url & headers & m & Hu & Hh & Hr)].
  - destruct (skipping_is_stable (tokenClaims extractor)) as [Hstep Hres].
    eapply (buildSession_permutation _ Hstep Hres); try done.
    split; [|done]. by eapply getClaimExtractor_skips.
  - assert (profileClaims extractor = None ∧ profileURL extractor = Some url ∧
            requestHeaders extractor = Some headers ∧ ctx extractor = context_TODO)
      as (Hnil & Hu' & Hh' & Hctx).
    { unfold getClaimExtractor, NewClaimExtractor in Hext.
      destruct (Claims idToken) as [claims [e|]]; [done|]. by simplify_eq. }
    assert (respond w (length (issued w)) (profileRequest url headers extractor)
            = (Some m, None)) as Hr'.
    { unfold profileRequest. by rewrite Hctx. }
    destruct (served_is_stable url headers m extractor w Hnil Hu' Hh' Hr') as [Hstep Hres].
    eapply (buildSession_permutation _ Hstep Hres); try done. by left.
Qed.
End OrderOfClaimsSettled.

Lemma session_independent_of_claim_order_witness :
  let p := exampleProvider (Some "https://idp.example.com/userinfo") in
  let token := {| Claims := (delete "email_verified" exampleClaims, None) |} in
  (buildSessionFromClaims (lib := goLib) p (Some token) "at"
     (reverse (map_to_list (claimDsts p))) (serving exampleProfile)).1
  = (Some {| User := "u1"; Email := "a@example.com"; Groups := ["g1"; "g2"];
             PreferredUsername := ""; Nonce := "" |}, None).
Proof.
  apply (session_independent_of_claim_order (lib := goLib)
           (exampleProvider (Some "https://idp.example.com/userinfo")) _ "at"
           (map_to_list (claimDsts (exampleProvider None)))).
  - right. exists "https://idp.example.com/userinfo", {[ "Authorization" := ["Bearer at"] ]},
      exampleProfile. repeat split.
  - unfold range_order. reflexivity.
  - unfold range_order. apply reverse_Permutation.
  - vm_compute. reflexivity.
Defined.

(** ** Allowed groups and provider defaults *)

Lemma SetAllowedGroups_loop (groups : list string) (allowed : gset string) :
  foldl (λ allowed group, {[ group ]} ∪ allowed) allowed groups
  = list_to_set groups ∪ allowed.
Proof.
  revert allowed. induction groups as [|g groups IH]; intros allowed; simpl.
  - set_solver.
  - rewrite IH. set_solver.
Qed.

(** X15. After [SetAllowedGroups] a group is allowed exactly when it is in
    the list given: whatever was allowed before is dropped, and a group
    listed twice is allowed once. *)
Theorem SetAllowedGroups_allows_the_listed (groups : list string) (g : string) :
  g ∈ SetAllowedGroups groups ↔ g ∈ groups.
Proof. unfold SetAllowedGroups. rewrite SetAllowedGroups_loop. set_solver. Qed.

(** X16. [SetAllowedGroups] allows at most as many groups as the list is
    long, and exactly as many when no group is listed twice. *)
Theorem SetAllowedGroups_size (groups : list string) :
  (size (SetAllowedGroups groups) ≤ length groups)%nat ∧
  (NoDup groups → size (SetAllowedGroups groups) = length groups).
Proof.
  unfold SetAllowedGroups. rewrite SetAllowedGroups_loop, (right_id_L ∅ _).
  split; [|by apply size_list_to_set].
  induction groups as [|g groups IH].
  - change (list_to_set []) with (∅ : gset string). by rewrite size_empty.
  - change (list_to_set (g :: groups)) with ({[ g ]} ∪ list_to_set groups : gset string).
    pose proof (size_union_alt ({[ g ]} : gset string) (list_to_set groups)) as Hsize.
    pose proof (subseteq_size (list_to_set groups ∖ {[ g ]}) (list_to_set groups : gset string))
      as Hsub.
    rewrite size_singleton in Hsize. simpl.
    assert (list_to_set groups ∖ {[ g ]} ⊆ (list_to_set groups : gset string)) by set_solver.
    specialize (Hsub ltac:(done)). lia.
Qed.

Lemma SetAllowedGroups_size_witness :
  size (SetAllowedGroups ["admins"; "staff"]) = 2 ∧
  (size (SetAllowedGroups ["admins"; "staff"; "admins"]) ≤ 3)%nat.
Proof.
  split.
  - apply (SetAllowedGroups_size ["admins"; "staff"]).
    repeat constructor; set_solver.
  - apply (SetAllowedGroups_size ["admins"; "staff"; "admins"]).
Defined.

Lemma defaultURL_is_Some u d : is_Some (defaultURL u d).
Proof. unfold defaultURL. repeat case_match; eauto. Qed.

Lemma defaultURL_set s d : s ≠ "" → defaultURL (Some s) d = Some s.
Proof. intros Hs. unfold defaultURL. by rewrite bool_decide_eq_true_2. Qed.

Lemma defaultURL_idempotent u d : defaultURL (defaultURL u d) d = defaultURL u d.
Proof.
  unfold defaultURL.
  destruct u as [s|], d as [t|]; repeat (case_bool_decide || simpl); congruence.
Qed.

(** X17. [setProviderDefaults] is idempotent: setting the same defaults
    again changes nothing. *)
Theorem setProviderDefaults_idempotent
    (defaults : providerDefaults.t) (p : ProviderData) (e : ProviderEndpoints) :
  let '(p', e') := setProviderDefaults defaults p e in
  setProviderDefaults defaults p' e' = (p', e').
Proof.
  unfold setProviderDefaults. simpl. rewrite !defaultURL_idempotent.
  do 3 f_equal. repeat case_bool_decide; congruence.
Qed.

(** X18. After [setProviderDefaults] none of the four URLs is [nil]; the
    provider name is the default's, whatever it was; a URL that was set to
    a non-empty one and a scope that was not empty are kept; and a URL that
    was [nil] or empty is the default's, or the empty URL when the default
    has none. *)
Theorem setProviderDefaults_fills_the_unset
    (defaults : providerDefaults.t) (p : ProviderData) (e : ProviderEndpoints) :
  let p' := (setProviderDefaults defaults p e).1 in
  let e' := (setProviderDefaults defaults p e).2 in
  (is_Some (ProfileURL p') ∧ is_Some (LoginURL e') ∧
   is_Some (RedeemURL e') ∧ is_Some (ValidateURL e')) ∧
  ProviderName e' = providerDefaults.name defaults ∧
  (∀ s, s ≠ "" →
     (ProfileURL p = Some s → ProfileURL p' = Some s) ∧
     (LoginURL e = Some s → LoginURL e' = Some s) ∧
     (RedeemURL e = Some s → RedeemURL e' = Some s) ∧
     (ValidateURL e = Some s → ValidateURL e' = Some s) ∧
     (Scope e = s → Scope e' = s)) ∧
  (ProfileURL p = None ∨ ProfileURL p = Some "" →
   ProfileURL p' = Some (default "" (providerDefaults.profileURL defaults))).
Proof.
  simpl. split; [|split; [done|split]].
  - repeat split; apply defaultURL_is_Some.
  - intros s Hs. repeat split; try (intros ->; by apply defaultURL_set).
    intros ->. by rewrite bool_decide_eq_false_2.
  - intros [-> | ->]; simpl; by destruct (providerDefaults.profileURL defaults).
Qed.

Lemma setProviderDefaults_fills_the_unset_witness :
  RedeemURL (setProviderDefaults exampleDefaults (exampleProvider None) bareEndpoints).2
  = Some "https://idp.example.com/token" ∧
  ProfileURL (setProviderDefaults exampleDefaults (exampleProvider None) bareEndpoints).1
  = Some "".
Proof.
  destruct (setProviderDefaults_fills_the_unset exampleDefaults (exampleProvider None)
              bareEndpoints) as (_ & _ & Hkept & Hunset).
  split.
  - apply (Hkept "https://idp.example.com/token"); [discriminate|reflexivity].
  - apply Hunset. left. reflexivity.
Defined.

(** X19. A provider whose profile URL was left unset, after
    [setProviderDefaults] with defaults that name none, has the empty URL
    for it, not [nil]: with headers for the access token, a lookup of a name
    the token claims lack is not skipped but issues a profile request to the
    empty URL. *)
Theorem unset_profile_URL_is_requested
    (defaults : providerDefaults.t) (p : ProviderData) (e : ProviderEndpoints)
    (idToken : IDToken) (accessToken : string) (headers : Header)
    (claims : ClaimSet) (claim : string) (w : World) :
  ProfileURL p = None ∨ ProfileURL p = Some "" →
  providerDefaults.profileURL defaults = None →
  getAuthorizationHeader p accessToken = Some headers →
  Claims idToken = (claims, None) →
  claim ≠ "" → claims !! claim = None →
  ∃ extractor,
    getClaimExtractor (setProviderDefaults defaults p e).1 idToken accessToken
    = (Some extractor, None) ∧
    (GetClaim claim extractor w).2
    = after_request {| reqURL := ""; reqCtx := context_TODO; reqHeaders := headers |} w.
Proof.
  intros Hunset Hdef Hh Hclaims Hne Hmiss. eexists. split.
  - by apply getClaimExtractor_ok.
  - rewrite GetClaim_unpopulated by done.
    rewrite (getProfileClaims_fetch "" headers).
    + unfold profileRequest. simpl. by destruct (respond w _ _) as [pc [err|]].
    + simpl. rewrite Hdef. by destruct Hunset as [-> | ->].
    + done.
Qed.

Lemma unset_profile_URL_is_requested_witness :
  ∃ extractor,
    getClaimExtractor (setProviderDefaults exampleDefaults (exampleProvider None)
                         bareEndpoints).1 exampleToken "at"
    = (Some extractor, None) ∧
    (GetClaim "name" extractor unreachable).2
    = after_request {| reqURL := ""; reqCtx := context_TODO;
                       reqHeaders := {[ "Authorization" := ["Bearer at"] ]} |} unreachable.
Proof.
  apply (unset_profile_URL_is_requested exampleDefaults (exampleProvider None) bareEndpoints
           exampleToken "at" _ exampleClaims "name" unreachable);
    try reflexivity; try discriminate.
  left. reflexivity.
Defined.

(** ** What an assembled session holds *)

Section SessionFields.
Context {lib : GoLib}.

Lemma coerceClaim_into_field v ss f dst :
  coerceClaim v (addr ss f) = (dst, None) →
  addr (store ss f dst) f = dst ∧ coerceClaim v (addr emptySession f) = (dst, None).
Proof.
  destruct f; simpl.
  - destruct (toString v) as [str [e|]]; [done|]. by intros [= <-].
  - destruct (toString v) as [str [e|]]; [done|]. by intros [= <-].
  - destruct (toStringSlice v) as [strs [e|]]; [done|]. by intros [= <-].
  - destruct (toString v) as [str [e|]]; [done|]. by intros [= <-].
Qed.

Lemma rangeClaims_keeps_field entries ss c w f :
  f ∉ entries.*2 → addr (rangeClaims entries ss c w).1.1.2 f = addr ss f.
Proof.
  revert ss c w. induction entries as [|[claim f'] rest IH]; intros ss c w Hno; [done|].
  simpl in Hno. apply not_elem_of_cons in Hno as [Hne Hno]. simpl.
  destruct (GetClaimInto claim (addr ss f') c w) as [[[[found [err|]] dst] c'] w']; [done|].
  rewrite IH by done. by apply addr_store_ne.
Qed.

Lemma rangeClaims_writes_token_claim entries ss c w claim f v ss' c' w' :
  NoDup entries.*2 → (claim, f) ∈ entries →
  claim ≠ "" → tokenClaims c !! claim = Some v →
  rangeClaims entries ss c w = (None, ss', c', w') →
  coerceClaim v (addr emptySession f) = (addr ss' f, None).
Proof.
  revert ss c w. induction entries as [|[claim1 f1] rest IH]; intros ss c w Hnd Hin Hne Htok.
  { by apply elem_of_nil in Hin. }
  simpl in Hnd. apply NoDup_cons in Hnd as [Hnotin Hnd].
  apply elem_of_cons in Hin as [[= <- <-]|Hin]; simpl.
  - unfold GetClaimInto. rewrite (GetClaim_token _ v) by done.
    destruct (coerceClaim v (addr ss f)) as [dst [e|]] eqn:Hco; [done|].
    destruct (coerceClaim_into_field _ _ _ _ Hco) as [Haddr Hco'].
    intros Hrest. rewrite Hco'. f_equal.
    pose proof (rangeClaims_keeps_field rest (store ss f dst) c w f Hnotin) as Hkeep.
    rewrite Hrest in Hkeep. simpl in Hkeep. by rewrite Hkeep.
  - pose proof (lookup_effect_frame _ _ _ _ (GetClaimInto_effect claim1 (addr ss f1) c w))
      as (_ & _ & _ & Htok' & _).
    destruct (GetClaimInto claim1 (addr ss f1) c w) as [[[[found [err|]] dst] c1] w1];
      [done|]. simpl in Htok'.
    apply IH; try done. by rewrite Htok'.
Qed.

Lemma rangeClaims_error_is_lookup_error entries ss c w err :
  (rangeClaims entries ss c w).1.1.1 = Some err →
  ∃ claim e,
    err = fmt_Errorf "could not get claim %q: %v" [ArgString claim; ArgError e] ∨
    err = fmt_Errorf "could no coerce claim: %v" [ArgError e].
Proof.
  revert ss c w. induction entries as [|[claim f] rest IH]; intros ss c w; [done|]. simpl.
  unfold GetClaimInto at 1.
  destruct (GetClaim claim c w) as [[[[v []] [e|]] c1] w1]; simpl.
  - intros [= <-]. eexists _, _. by left.
  - destruct (coerceClaim v (addr ss f)) as [d [e|]]; simpl; [|apply IH].
    intros [= <-]. exists claim. eexists. by right.
  - intros [= <-]. eexists _, _. by left.
  - apply IH.
Qed.

(** X20. [buildSessionFromClaims] fails with the unverified-email error
    only where the error is due: enforcement applies, the loop over the
    session's claims returned without error the session whose email the
    error carries, and [email_verified] was found with a value that coerces
    to false. *)
Theorem unverified_email_error_is_due
    (p : ProviderData) (idToken : option IDToken) (accessToken : string)
    (order : list (string * SessionField)) (w : World) (email : string) :
  (buildSessionFromClaims p idToken accessToken order w).1
  = (None, Some (fmt_Errorf "email in id_token (%s) isn't verified" [ArgString email])) →
  EmailClaim p = OIDCEmailClaim ∧ AllowUnverifiedEmail p = false ∧
  ∃ token extractor ss extractor' w' value,
    idToken = Some token ∧
    getClaimExtractor p token accessToken = (Some extractor, None) ∧
    rangeClaims order emptySession extractor w = (None, ss, extractor', w') ∧
    Email ss = email ∧
    (GetClaim "email_verified" extractor' w').1.1 = (value, true, None) ∧
    cast_ToBool value = false.
Proof.
  unfold buildSessionFromClaims. destruct idToken as [token|]; [|done].
  destruct (getClaimExtractor_total p token accessToken) as [[extractor Hext]|[err Hext]];
    rewrite Hext.
  2: { simpl. intros [= ->]. unfold getClaimExtractor in Hext.
       destruct (NewClaimExtractor _ _ _ _) as [? [?|]]; by simplify_eq. }
  destruct (rangeClaims order emptySession extractor w) as [[[[err|] ss] c'] w'] eqn:Hloop.
  { simpl. intros [= ->].
    pose proof (rangeClaims_error_is_lookup_error order emptySession extractor w) as Herr.
    rewrite Hloop in Herr. by destruct (Herr _ eq_refl) as (claim & e & [?|?]). }
  unfold GetClaimInto.
  destruct (GetClaim "email_verified" c' w') as [[[[v found] [e|]] c''] w''] eqn:Hget;
    simpl; [by destruct found|].
  destruct found; simpl; [|by rewrite !andb_false_r].
  destruct (bool_decide (EmailClaim p = OIDCEmailClaim)) eqn:Hemail; [|done].
  destruct (AllowUnverifiedEmail p) eqn:Hallow; [done|].
  destruct (cast_ToBool v) eqn:Hbool; [done|]. simpl. intros [= <-].
  apply bool_decide_eq_true in Hemail. repeat split; try done.
  exists token, extractor, ss, c', w', v. by rewrite Hget.
Qed.

(** X21. In a session that [buildSessionFromClaims] returns, the field for
    every claim of the map literal that the token has holds the token's
    value coerced to the field's type: the user, the email and the
    preferred user name by [toString], the groups by [toStringSlice]; no
    later claim and no profile claim overwrites it. *)
Theorem session_fields_hold_the_token_claims
    (p : ProviderData) (idToken : IDToken) (accessToken : string)
    (order : list (string * SessionField)) (w : World) (ss : SessionState)
    (claims : ClaimSet) (claim : string) (f : SessionField) (value : any) :
  range_order p order →
  Claims idToken = (claims, None) →
  claimDsts p !! claim = Some f → claim ≠ "" → claims !! claim = Some value →
  (buildSessionFromClaims p (Some idToken) accessToken order w).1 = (Some ss, None) →
  coerceClaim value (addr emptySession f) = (addr ss f, None).
Proof.
  intros Horder Hclaims Hf Hne Hv. unfold buildSessionFromClaims.
  rewrite (getClaimExtractor_ok _ _ _ claims) by done.
  destruct (rangeClaims order emptySession _ w) as [[[[err|] ss'] c'] w'] eqn:Hloop;
    [done|].
  destruct (GetClaimInto "email_verified" (PBool false) c' w')
    as [[[[found [err|]] dst] c''] w'']; [done|].
  destruct (_ && _); [done|]. simpl. intros [= <-].
  eapply rangeClaims_writes_token_claim; [| |exact Hne| |exact Hloop].
  - unfold range_order in Horder. rewrite Horder. apply claimDsts_fields_NoDup.
  - rewrite Horder. by apply elem_of_map_to_list.
  - done.
Qed.
End SessionFields.

Lemma session_fields_hold_the_token_claims_witness :
  coerceClaim (lib := goLib) (VSlice [VString "g1"; VString "g2"]) (addr emptySession FGroups)
  = (PStringSlice ["g1"; "g2"], None).
Proof.
  apply (session_fields_hold_the_token_claims (lib := goLib) lenientProvider exampleToken "at"
           (map_to_list (claimDsts lenientProvider)) unreachable
           {| User := "u1"; Email := "a@example.com"; Groups := ["g1"; "g2"];
              PreferredUsername := ""; Nonce := "" |}
           exampleClaims "groups" FGroups).
  - unfold range_order. reflexivity.
  - reflexivity.
  - vm_compute. reflexivity.
  - discriminate.
  - vm_compute. reflexivity.
  - vm_compute. reflexivity.
Defined.

Lemma unverified_email_error_is_due_witness :
  EmailClaim (exampleProvider None) = OIDCEmailClaim ∧
  AllowUnverifiedEmail (exampleProvider None) = false.
Proof.
  destruct (unverified_email_error_is_due (lib := goLib) (exampleProvider None)
              (Some exampleToken) "at" (map_to_list (claimDsts (exampleProvider None)))
              unreachable "a@example.com") as (H1 & H2 & _).
  - vm_compute. reflexivity.
  - auto.
Defined.

(** ** The nonce of a token without one *)

(** X22. A token whose claims have no [nonce] is checked as a token with
    the empty nonce: [checkNonce] hands the empty string to the session's
    [CheckNonce] and returns the mismatch error exactly when that fails,
    not an error for the missing claim. *)
Theorem token_without_nonce_is_checked_as_empty {lib : GoLib}
    (p : ProviderData) (s : SessionState) (idToken : IDToken) (w : World)
    (claims : ClaimSet) :
  Claims idToken = (claims, None) →
  claims !! "nonce" = None →
  checkNonce p s idToken w =
    (if CheckNonce s ""
     then None
     else Some (errors_New "id_token nonce claim does not match the session nonce"), w).
Proof.
  intros Hclaims Hnonce. unfold checkNonce.
  rewrite (getClaimExtractor_ok _ _ _ claims) by done.
  rewrite getAuthorizationHeader_no_token.
  unfold GetClaimInto. rewrite GetClaim_unpopulated by done.
  rewrite getProfileClaims_skip by (simpl; auto). simpl. rewrite lookup_empty. simpl.
  by destruct (CheckNonce s "").
Qed.

Lemma token_without_nonce_is_checked_as_empty_witness :
  checkNonce (lib := goLib) (exampleProvider None) emptySession exampleToken unreachable
  = (None, unreachable).
Proof.
  rewrite (token_without_nonce_is_checked_as_empty (lib := goLib) _ _ _ _ exampleClaims);
    reflexivity.
Defined.
